(** * ParameterTraits: typed property registry

    A shallow embedding of [main.cpp] (the two demo programs
    [property_traits_demo.cpp] and [parameters_min.cpp]) together with the
    part of the C runtime they call ([memcpy], [strtol], [strtof],
    [snprintf]), and the properties of the registry proved over it.

    Platform assumptions: bytes are octets, objects are little-endian,
    [float] is IEEE-754 binary32, [int16_t] is two's complement and a
    conversion to it keeps the low 16 bits, [long] is 64 bits wide, the C
    locale is in force, and conversions between text and [float] round to
    nearest, ties to even. *)

From Stdlib Require Import ZArith NArith String Ascii List Bool Lia.
From Stdlib Require Import Floats.SpecFloat.
From Stdlib Require Import DecimalString DecimalPos DecimalZ DecimalFacts.
From coqutil Require Import Byte Word.Interface Word.Properties Word.Naive.
From coqutil Require Import Word.LittleEndianList.
Import ListNotations.
Local Open Scope Z_scope.

(* ===================================================================== *)
(** * Outcomes of a C++ call *)
(* ===================================================================== *)

(** A call either returns, stops the program with a diagnostic (a failed
    [assert], [abort], [std::terminate]), or has undefined behaviour (an
    access outside an object). *)
Inductive outcome (A : Type) : Type :=
| Returns (a : A)
| Aborts
| Undefined.

Arguments Returns {A} a.
Arguments Aborts {A}.
Arguments Undefined {A}.

Definition bind {A B : Type} (c : outcome A) (k : A -> outcome B) : outcome B :=
  match c with
  | Returns a => k a
  | Aborts => Aborts
  | Undefined => Undefined
  end.

Notation "x <- c ;; k" := (bind c (fun x => k))
  (at level 61, c at next level, right associativity).
Notation "' p <- c ;; k" := (bind c (fun p => k))
  (at level 61, p pattern, c at next level, right associativity).

(** Unchecked indexing of a C array or a [std::array] ([operator[]]). *)
Definition index {A : Type} (a : list A) (i : nat) : outcome A :=
  match nth_error a i with
  | Some x => Returns x
  | None => Undefined
  end.

(** [a[i] = x] on an index known to be in range. *)
Fixpoint assign {A : Type} (a : list A) (i : nat) (x : A) : list A :=
  match a, i with
  | [], _ => []
  | _ :: t, O => x :: t
  | h :: t, S j => h :: assign t j x
  end.

(* ===================================================================== *)
(** * Memory buffers *)
(* ===================================================================== *)

(** [blit src dst] overwrites the front of [dst] with [src]; writing past
    the end of [dst] is undefined. *)
Definition blit {A : Type} (src dst : list A) : outcome (list A) :=
  if (length src <=? length dst)%nat
  then Returns (src ++ skipn (length src) dst)
  else Undefined.

(** [std::memcpy(dst, src, n)]: the new contents of [dst]. Reading past the
    end of [src] is undefined. *)
Definition memcpy (dst src : list byte) (n : nat) : outcome (list byte) :=
  if (n <=? length src)%nat then blit (firstn n src) dst else Undefined.

(** [const char*]: [None] is the null pointer, otherwise the characters
    before the terminating NUL. *)
Definition cstring := option string.

(** The C string held in a [char] buffer: the characters before the first
    NUL. *)
Fixpoint c_str (buf : list ascii) : string :=
  match buf with
  | [] => EmptyString
  | c :: rest => if Ascii.eqb c zero then EmptyString else String c (c_str rest)
  end.

(* ===================================================================== *)
(** * Scalars *)
(* ===================================================================== *)

(** [int16_t]: a 16-bit word read as a two's complement number. *)
Definition int16_t : Type := @word.rep 16 Naive.word16.

(** [float]: the 32 bits of an IEEE-754 binary32 number. *)
Definition float : Type := @word.rep 32 Naive.word32.

Definition LONG_MAX : Z := 2 ^ 63 - 1.
Definition LONG_MIN : Z := - 2 ^ 63.

Module F32.

Definition prec : Z := 24.
Definition emax : Z := 128.

Definition sign_bit (s : bool) : Z := if s then Z.shiftl 1 31 else 0.

(** The number denoted by a bit pattern. *)
Definition of_bits (b : Z) : spec_float :=
  let s := Z.testbit b 31 in
  let e := Z.land (Z.shiftr b 23) 255 in
  let m := Z.land b (Z.ones 23) in
  if e =? 0 then
    match m with
    | Zpos p => S754_finite s p (-149)
    | _ => S754_zero s
    end
  else if e =? 255 then
    if m =? 0 then S754_infinity s else S754_nan
  else
    match Z.lor m (Z.shiftl 1 23) with
    | Zpos p => S754_finite s p (e - 150)
    | _ => S754_nan
    end.

(** The bit pattern of a number; a NaN is the default quiet NaN. *)
Definition to_bits (f : spec_float) : Z :=
  match f with
  | S754_zero s => sign_bit s
  | S754_infinity s => Z.lor (sign_bit s) (Z.shiftl 255 23)
  | S754_nan => Z.lor (Z.shiftl 255 23) (Z.shiftl 1 22)
  | S754_finite s m e =>
      if Z.shiftl 1 23 <=? Zpos m
      then Z.lor (sign_bit s) (Z.shiftl (e + 150) 23 + (Zpos m - Z.shiftl 1 23))
      else Z.lor (sign_bit s) (Zpos m)
  end.

Definition val (x : float) : spec_float := of_bits (word.unsigned x).
Definition mk (f : spec_float) : float := word.of_Z (to_bits f).

Definition signbit (x : float) : bool := Z.testbit (word.unsigned x) 31.

(** [x <= y] and [x >= y] on [float]; false when either is a NaN. *)
Definition le (x y : float) : bool := SFleb (val x) (val y).
Definition ge (x y : float) : bool := SFleb (val y) (val x).

(** The binary32 number nearest to [m * 2 ^ e2], for [0 <= m]. *)
Definition of_binary (neg : bool) (m : Z) (e2 : Z) : spec_float :=
  match m with
  | Zpos p => binary_round prec emax neg p e2
  | _ => S754_zero neg
  end.

(** The binary32 number nearest to [m * 10 ^ e10], for [0 <= m]. *)
Definition of_decimal (neg : bool) (m : Z) (e10 : Z) : spec_float :=
  if m <=? 0 then S754_zero neg
  else if 0 <=? e10 then of_binary neg (m * 10 ^ e10) 0
  else
    let '(q, e, l) := SFdiv_core_binary prec emax m 0 (10 ^ (- e10)) 0 in
    binary_round_aux prec emax neg q e l.

(** A [float] literal of the source, [digits * 10 ^ e10]. *)
Definition lit (neg : bool) (digits : Z) (e10 : Z) : float :=
  mk (of_decimal neg digits e10).

End F32.

(* ===================================================================== *)
(** * Text scanning: [strtol] and [strtof] *)
(* ===================================================================== *)

Definition code (c : ascii) : Z := Z.of_N (N_of_ascii c).

(** [isspace] in the C locale: space, and the controls HT LF VT FF CR. *)
Definition isspace (c : ascii) : bool :=
  (code c =? 32) || ((9 <=? code c) && (code c <=? 13)).

Definition tolower (c : ascii) : ascii :=
  if (65 <=? code c) && (code c <=? 90)
  then ascii_of_N (Z.to_N (code c + 32)) else c.

Definition digit (c : ascii) : option Z :=
  if (48 <=? code c) && (code c <=? 57) then Some (code c - 48) else None.

Definition xdigit (c : ascii) : option Z :=
  match digit c with
  | Some d => Some d
  | None =>
      let l := code (tolower c) in
      if (97 <=? l) && (l <=? 102) then Some (l - 87) else None
  end.

(** Characters allowed between the parentheses of [nan(...)]. *)
Definition nchar (c : ascii) : bool :=
  let l := code (tolower c) in
  match digit c with
  | Some _ => true
  | None => ((97 <=? l) && (l <=? 122)) || (code c =? 95)
  end.

(** Leading white space: how many characters, and what follows them. *)
Fixpoint skip_spaces (s : string) : nat * string :=
  match s with
  | String c r =>
      if isspace c then let '(n, r') := skip_spaces r in (S n, r') else (O, s)
  | EmptyString => (O, s)
  end.

(** An optional sign: is it a minus, how many characters, what follows. *)
Definition scan_sign (s : string) : bool * nat * string :=
  match s with
  | String "-" r => (true, 1%nat, r)
  | String "+" r => (false, 1%nat, r)
  | _ => (false, O, s)
  end.

(** The longest run of digits in the given base, accumulated onto [acc]:
    the number, how many digits, what follows. *)
Fixpoint scan_digits (dig : ascii -> option Z) (base : Z) (s : string)
    (acc : Z) : Z * nat * string :=
  match s with
  | String c r =>
      match dig c with
      | Some d =>
          let '(v, n, r') := scan_digits dig base r (acc * base + d) in
          (v, S n, r')
      | None => (acc, O, s)
      end
  | EmptyString => (acc, O, s)
  end.

(** A result outside [long] becomes the nearest bound. *)
Definition clamp_long (v : Z) : Z := Z.max LONG_MIN (Z.min LONG_MAX v).

(** [std::strtol(in, &end, 10)] for a non-null [in]: the value returned and
    [end - in]. No digits: no conversion, [end == in]. A value outside
    [long] is clamped. *)
Definition strtol (s : string) : Z * nat :=
  let '(ws, s1) := skip_spaces s in
  let '(neg, sg, s2) := scan_sign s1 in
  let '(v, nd, _) := scan_digits digit 10 s2 0 in
  match nd with
  | O => (0, O)
  | S _ =>
      (clamp_long (if neg then - v else v), (ws + sg + nd)%nat)
  end.

(** Digits with an optional radix point: all the digits read as one
    integer, how many digits, how many of them after the point, how
    many characters, what follows. *)
Definition scan_mantissa (dig : ascii -> option Z) (base : Z) (s : string)
    : Z * nat * nat * nat * string :=
  let '(i, ni, r1) := scan_digits dig base s 0 in
  match r1 with
  | String "." r2 =>
      let '(m, nf, r3) := scan_digits dig base r2 i in
      (m, (ni + nf)%nat, nf, (ni + 1 + nf)%nat, r3)
  | _ => (i, ni, O, ni, r1)
  end.

(** An optional exponent part introduced by [marker] (lower case): its
    value and how many characters. A marker without digits is no
    exponent part. *)
Definition scan_exponent (marker : ascii) (s : string) : Z * nat :=
  match s with
  | String c r =>
      if Ascii.eqb (tolower c) marker then
        let '(neg, sg, r1) := scan_sign r in
        let '(v, nd, _) := scan_digits digit 10 r1 0 in
        match nd with
        | O => (0, O)
        | S _ => (if neg then - v else v, (1 + sg + nd)%nat)
        end
      else (0, O)
  | EmptyString => (0, O)
  end.

(** [s] starts with [p] up to case ([p] in lower case): what follows. *)
Fixpoint prefix_ci (p s : string) : option string :=
  match p, s with
  | EmptyString, _ => Some s
  | String a p', String c s' =>
      if Ascii.eqb (tolower c) a then prefix_ci p' s' else None
  | String _ _, EmptyString => None
  end.

Fixpoint scan_nchars (s : string) : nat * string :=
  match s with
  | String c r =>
      if nchar c then let '(n, r') := scan_nchars r in (S n, r') else (O, s)
  | EmptyString => (O, s)
  end.

(** The optional [(n-char-sequence)] after [nan]: how many characters. *)
Definition scan_nan_payload (s : string) : nat :=
  match s with
  | String "(" r =>
      match scan_nchars r with
      | (n, String ")" _) => (n + 2)%nat
      | _ => O
      end
  | _ => O
  end.

Definition with_sign (neg : bool) (bits : Z) : float :=
  word.of_Z (Z.lor (F32.sign_bit neg) bits).

(** [std::strtof(in, &end)] for a non-null [in]: the value returned and
    [end - in]. The subject is, after white space and a sign, a
    hexadecimal or decimal floating constant, [inf], [infinity], [nan] or
    [nan(...)]; anything else is no conversion, [end == in], value zero.
    The payload of [nan(...)] is the default one. *)
Definition strtof (s : string) : float * nat :=
  let '(ws, s1) := skip_spaces s in
  let '(neg, sg, s2) := scan_sign s1 in
  let lead := (ws + sg)%nat in
  let hex :=
    match s2 with
    | String "0" (String x r) =>
        if Ascii.eqb (tolower x) "x"%char then
          let '(m, nd, nf, nc, r') := scan_mantissa xdigit 16 r in
          match nd with
          | O => None
          | S _ =>
              let '(e, ne) := scan_exponent "p"%char r' in
              Some (F32.mk (F32.of_binary neg m (e - 4 * Z.of_nat nf)),
                    (lead + 2 + nc + ne)%nat)
          end
        else None
    | _ => None
    end in
  match hex with
  | Some r => r
  | None =>
      let '(m, nd, nf, nc, r') := scan_mantissa digit 10 s2 in
      match nd with
      | S _ =>
          let '(e, ne) := scan_exponent "e"%char r' in
          (F32.mk (F32.of_decimal neg m (e - Z.of_nat nf)),
           (lead + nc + ne)%nat)
      | O =>
          match prefix_ci "infinity"%string s2, prefix_ci "inf"%string s2,
                prefix_ci "nan"%string s2 with
          | Some _, _, _ =>
              (F32.mk (S754_infinity neg), (lead + 8)%nat)
          | None, Some _, _ =>
              (F32.mk (S754_infinity neg), (lead + 3)%nat)
          | None, None, Some r =>
              (with_sign neg (F32.to_bits S754_nan),
               (lead + 3 + scan_nan_payload r)%nat)
          | None, None, None => (word.of_Z 0, O)
          end
      end
  end.

(* ===================================================================== *)
(** * Text formatting: [snprintf] *)
(* ===================================================================== *)

(** A number in decimal: digits, no leading zeros, [-] if negative. *)
Definition decimal (n : Z) : string := NilZero.string_of_int (Z.to_int n).

(** The conversion [%d] of an [int]. *)
Definition format_d (v : Z) : string := decimal v.

(** [m * 2 ^ e] in hundredths, rounded to nearest, ties to even. *)
Definition hundredths (m e : Z) : Z :=
  if 0 <=? e then m * 100 * 2 ^ e
  else
    let d := 2 ^ (- e) in
    let q := (m * 100) / d in
    let r := (m * 100) mod d in
    if 2 * r <? d then q
    else if d <? 2 * r then q + 1
    else if Z.even q then q else q + 1.

Definition two_digits (n : Z) : string :=
  if n <? 10 then String "0" (decimal n) else decimal n.

(** The conversion [%.2f] of a [float] promoted to [double]. *)
Definition format_2f (x : float) : string :=
  ((if F32.signbit x then "-" else "") ++
   match F32.val x with
   | S754_nan => "nan"
   | S754_infinity _ => "inf"
   | S754_zero _ => "0.00"
   | S754_finite _ m e =>
       let h := hundredths (Zpos m) e in
       decimal (h / 100) ++ "." ++ two_digits (h mod 100)
   end)%string.

(** [std::snprintf(out, n, fmt, ...)], given the text the conversion
    produces: the value returned (the length of the whole text) and the
    new contents of [out], which receives at most [n - 1] characters and
    a NUL, and nothing when [n] is zero. *)
Definition snprintf (out : list ascii) (n : nat) (text : string)
    : outcome (Z * list ascii) :=
  let chars := list_ascii_of_string text in
  match n with
  | O => Returns (Z.of_nat (length chars), out)
  | S k =>
      out' <- blit (firstn k chars ++ [zero]) out ;;
      Returns (Z.of_nat (length chars), out')
  end.

(* ===================================================================== *)
(** * Object representation *)
(* ===================================================================== *)

(** What [sizeof(T)], [memcpy] from a [T] and a [static_cast<T*>] on raw
    storage need to know about a type. *)
Class ObjectRepr (T : Type) : Type := {
  sizeof : nat;
  to_bytes : T -> list byte;
  of_bytes : list byte -> T
}.
Arguments sizeof T {_}.

Class ObjectReprOk (T : Type) `{ObjectRepr T} : Prop := {
  length_to_bytes : forall v : T, length (to_bytes v) = sizeof T;
  of_to_bytes : forall v : T, of_bytes (to_bytes v) = v;
  to_of_bytes : forall b, length b = sizeof T -> to_bytes (of_bytes (T:=T) b) = b
}.

(** [*static_cast<const T*>(p)]: the [T] that lives at the front of the
    storage [p] points to. *)
Definition load (T : Type) `{ObjectRepr T} (p : list byte) : outcome T :=
  if (sizeof T <=? length p)%nat
  then Returns (of_bytes (firstn (sizeof T) p))
  else Undefined.

(** The storage after [*static_cast<T*>(p) = v]. *)
Definition store {T : Type} `{ObjectRepr T} (v : T) (p : list byte)
    : outcome (list byte) :=
  blit (to_bytes v) p.

#[export] Instance float_repr : ObjectRepr float := {|
  sizeof := 4;
  to_bytes x := le_split 4 (word.unsigned x);
  of_bytes b := word.of_Z (le_combine b)
|}.

#[export] Instance int16_repr : ObjectRepr int16_t := {|
  sizeof := 2;
  to_bytes x := le_split 2 (word.unsigned x);
  of_bytes b := word.of_Z (le_combine b)
|}.

(* ===================================================================== *)
(** * property_traits_demo.cpp *)
(* ===================================================================== *)

Module PropertyDemo.

(** [enum class PropertyID : uint16_t]. A value of the type is any
    16-bit number; the enumerators are the first two. *)
Definition PropertyID : Type := N.

Module PropertyID.
Definition TemperatureSetpoint : PropertyID := 0%N.
Definition DeviceVoltage : PropertyID := 1%N.
Definition enumerators : list PropertyID :=
  [TemperatureSetpoint; DeviceVoltage].
End PropertyID.

Module TemperatureSetpoint.
Record t : Type := { value : float }.
End TemperatureSetpoint.

Module DeviceVoltage.
Record t : Type := { value : int16_t }.
End DeviceVoltage.

#[export] Instance TemperatureSetpoint_repr
  : ObjectRepr TemperatureSetpoint.t := {|
  sizeof := sizeof float;
  to_bytes x := to_bytes (TemperatureSetpoint.value x);
  of_bytes b := {| TemperatureSetpoint.value := of_bytes b |}
|}.

#[export] Instance DeviceVoltage_repr : ObjectRepr DeviceVoltage.t := {|
  sizeof := sizeof int16_t;
  to_bytes x := to_bytes (DeviceVoltage.value x);
  of_bytes b := {| DeviceVoltage.value := of_bytes b |}
|}.

Inductive StorageKind : Type := Volatile.

(** [template <typename T> struct PropertyTraits]. [parse] takes the
    current value of its out-parameter and returns the new one. *)
Module PropertyTraits.
Class t (T : Type) : Type := {
  name : string;
  key : string;
  storage : StorageKind;
  default_v : T;
  validate : T -> bool;
  parse : cstring -> T -> bool * T;
  serialize : T -> list ascii -> nat -> outcome (Z * list ascii)
}.
Arguments name T {_}.
Arguments key T {_}.
Arguments storage T {_}.
Arguments default_v T {_}.
End PropertyTraits.

#[export] Instance TemperatureSetpoint_traits
  : PropertyTraits.t TemperatureSetpoint.t := {|
  PropertyTraits.name := "TemperatureSetpoint";
  PropertyTraits.key := "temperature";
  PropertyTraits.storage := Volatile;
  PropertyTraits.default_v :=
    {| TemperatureSetpoint.value := F32.lit false 230 (-1) |};
  PropertyTraits.validate x :=
    F32.ge (TemperatureSetpoint.value x) (F32.lit true 500 (-1))
    && F32.le (TemperatureSetpoint.value x) (F32.lit false 1500 (-1));
  PropertyTraits.parse text out :=
    match text with
    | None => (false, out)
    | Some s =>
        let '(v, consumed) := strtof s in
        match consumed with
        | O => (false, out)
        | S _ => (true, {| TemperatureSetpoint.value := v |})
        end
    end;
  PropertyTraits.serialize x out n :=
    snprintf out n (format_2f (TemperatureSetpoint.value x))
|}.

#[export] Instance DeviceVoltage_traits
  : PropertyTraits.t DeviceVoltage.t := {|
  PropertyTraits.name := "DeviceVoltage";
  PropertyTraits.key := "pressure";
  PropertyTraits.storage := Volatile;
  PropertyTraits.default_v := {| DeviceVoltage.value := word.of_Z 1013 |};
  PropertyTraits.validate p :=
    (0 <? word.signed (DeviceVoltage.value p))
    && (word.signed (DeviceVoltage.value p) <? 20000);
  PropertyTraits.parse text out :=
    match text with
    | None => (false, out)
    | Some s =>
        let '(v, consumed) := strtol s in
        match consumed with
        | O => (false, out)
        | S _ => (true, {| DeviceVoltage.value := word.of_Z v |})
        end
    end;
  PropertyTraits.serialize x out n :=
    snprintf out n (format_d (word.signed (DeviceVoltage.value x)))
|}.

(** [struct PropertyHandler]: a function pointer that the code tests
    for null before the call is an [option]. *)
Module PropertyHandler.
Definition ParseFn : Type :=
  cstring -> list byte -> outcome (bool * list byte).
Definition SerializeFn : Type :=
  list byte -> list ascii -> nat -> outcome (Z * list ascii).
Definition ValidateFn : Type := list byte -> outcome bool.

Record t : Type := {
  name : string;
  key : string;
  size : nat;
  storage : StorageKind;
  parse : option ParseFn;
  serialize : option SerializeFn;
  validate : ValidateFn
}.
End PropertyHandler.

(** [makeHandler<T>()]. The address of a static member function is
    never null, so each lambda takes the first branch of its
    conditional. *)
Definition makeHandler (T : Type) `{PropertyTraits.t T} `{ObjectRepr T}
    : PropertyHandler.t := {|
  PropertyHandler.name := PropertyTraits.name T;
  PropertyHandler.key := PropertyTraits.key T;
  PropertyHandler.size := sizeof T;
  PropertyHandler.storage := PropertyTraits.storage T;
  PropertyHandler.parse := Some (fun text out =>
    x <- load T out ;;
    let '(ok, x') := PropertyTraits.parse text x in
    out' <- store x' out ;;
    Returns (ok, out'));
  PropertyHandler.serialize := Some (fun src out n =>
    x <- load T src ;;
    PropertyTraits.serialize x out n);
  PropertyHandler.validate := fun src =>
    x <- load T src ;;
    Returns (PropertyTraits.validate x)
|}.

Definition kPropertyTable : list PropertyHandler.t :=
  [ makeHandler TemperatureSetpoint.t;
    makeHandler DeviceVoltage.t ].

Definition kPropertyCount : nat := length kPropertyTable.

Definition compute_max_size : nat :=
  fold_left
    (fun m h => if (m <? PropertyHandler.size h)%nat
                then PropertyHandler.size h else m)
    kPropertyTable O.

Definition kMaxPropertySize : nat := compute_max_size.

Module Slot.
Record t : Type := {
  buf : list byte;
  sz : nat;
  has_value : bool
}.
(** [Slot{}] *)
Definition init : t :=
  {| buf := repeat Byte.x00 kMaxPropertySize; sz := O; has_value := false |}.
End Slot.

Record PropertyStore : Type := { slots : list Slot.t }.

(** [PropertyStore store{}] *)
Definition PropertyStore_init : PropertyStore :=
  {| slots := repeat Slot.init kPropertyCount |}.

Definition static_cast_size_t (id : PropertyID) : nat := N.to_nat id.

Definition handler (id : PropertyID) : outcome PropertyHandler.t :=
  index kPropertyTable (static_cast_size_t id).

Definition setRaw (id : PropertyID) (data : list byte) (sz : nat)
    (st : PropertyStore) : outcome (bool * PropertyStore) :=
  h <- handler id ;;
  if negb (sz =? PropertyHandler.size h)%nat then Returns (false, st) else
  tmp <- memcpy (repeat Byte.x00 kMaxPropertySize) data sz ;;
  ok <- PropertyHandler.validate h tmp ;;
  if negb ok then Returns (false, st) else
  s <- index (slots st) (static_cast_size_t id) ;;
  buf' <- memcpy (Slot.buf s) data sz ;;
  Returns (true,
           {| slots := assign (slots st) (static_cast_size_t id)
                         {| Slot.buf := buf';
                            Slot.sz := sz;
                            Slot.has_value := true |} |}).

Definition getRaw (id : PropertyID) (out : list byte) (sz : nat)
    (st : PropertyStore) : outcome (bool * list byte) :=
  s <- index (slots st) (static_cast_size_t id) ;;
  if negb (Slot.has_value s) || negb (Slot.sz s =? sz)%nat
  then Returns (false, out)
  else
    out' <- memcpy out (Slot.buf s) sz ;;
    Returns (true, out').

(** [template <typename T> bool set(PropertyID id, const T& v)] *)
Definition set {T : Type} `{ObjectRepr T} (id : PropertyID) (v : T)
    (st : PropertyStore) : outcome (bool * PropertyStore) :=
  setRaw id (to_bytes v) (sizeof T) st.

(** [template <typename T> bool get(PropertyID id, T& out) const] *)
Definition get {T : Type} `{ObjectRepr T} (id : PropertyID) (out : T)
    (st : PropertyStore) : outcome (bool * T) :=
  '(ok, out') <- getRaw id (to_bytes out) (sizeof T) st ;;
  Returns (ok, of_bytes out').

Definition setFromText (id : PropertyID) (text : cstring)
    (st : PropertyStore) : outcome (bool * PropertyStore) :=
  h <- handler id ;;
  match PropertyHandler.parse h with
  | None => Returns (false, st)
  | Some parse =>
      '(parsed, tmp) <- parse text (repeat Byte.x00 kMaxPropertySize) ;;
      if negb parsed then Returns (false, st) else
      ok <- PropertyHandler.validate h tmp ;;
      if negb ok then Returns (false, st) else
      s <- index (slots st) (static_cast_size_t id) ;;
      buf' <- memcpy (Slot.buf s) tmp (PropertyHandler.size h) ;;
      Returns (true,
               {| slots := assign (slots st) (static_cast_size_t id)
                             {| Slot.buf := buf';
                                Slot.sz := PropertyHandler.size h;
                                Slot.has_value := true |} |})
  end.

(** [const PropertyHandler& h] and [const Slot& s] only bind references:
    nothing is read through them before the test. *)
Definition getAsText (id : PropertyID) (out : list ascii) (n : nat)
    (st : PropertyStore) : outcome (Z * list ascii) :=
  h <- handler id ;;
  s <- index (slots st) (static_cast_size_t id) ;;
  match PropertyHandler.serialize h with
  | None => Returns (-1, out)
  | Some serialize =>
      if negb (Slot.has_value s) then Returns (-1, out)
      else serialize (Slot.buf s) out n
  end.

End PropertyDemo.

(* ===================================================================== *)
(** * parameters_min.cpp *)
(* ===================================================================== *)

Module ParametersMin.

(** [enum class ParameterID : uint16_t] *)
Definition ParameterID : Type := N.

Module ParameterID.
Definition TemperatureSetpoint : ParameterID := 0%N.
Definition HighTemperatureAlarm : ParameterID := 1%N.
End ParameterID.

Module TemperatureSetpoint.
Record t : Type := { value : float }.
End TemperatureSetpoint.

Module HighTemperatureAlarm.
Record t : Type := { threshold : float }.
End HighTemperatureAlarm.

(** [template <typename T> struct ParameterTraits] *)
Module ParameterTraits.
Class t (T : Type) : Type := {
  name : string;
  default_v : T;
  validate : T -> bool;
  parse : cstring -> T -> bool * T;
  serialize : T -> list ascii -> nat -> outcome (Z * list ascii)
}.
Arguments name T {_}.
Arguments default_v T {_}.
End ParameterTraits.

#[global] Instance TemperatureSetpoint_traits
  : ParameterTraits.t TemperatureSetpoint.t :=
  let validate x :=
    F32.ge (TemperatureSetpoint.value x) (F32.lit false 0 (-1))
    && F32.le (TemperatureSetpoint.value x) (F32.lit false 1000 (-1)) in
  {|
  ParameterTraits.name := "TemperatureSetpoint";
  ParameterTraits.default_v :=
    {| TemperatureSetpoint.value := F32.lit false 375 (-1) |};
  ParameterTraits.validate := validate;
  ParameterTraits.parse text out :=
    match text with
    | None => (false, out)
    | Some s =>
        let '(v, consumed) := strtof s in
        match consumed with
        | O => (false, out)
        | S _ =>
            let out' := {| TemperatureSetpoint.value := v |} in
            (validate out', out')
        end
    end;
  ParameterTraits.serialize x out n :=
    snprintf out n (format_2f (TemperatureSetpoint.value x))
|}.

#[global] Instance HighTemperatureAlarm_traits
  : ParameterTraits.t HighTemperatureAlarm.t :=
  let validate x :=
    F32.ge (HighTemperatureAlarm.threshold x) (F32.lit false 0 (-1))
    && F32.le (HighTemperatureAlarm.threshold x) (F32.lit false 1500 (-1)) in
  {|
  ParameterTraits.name := "HighTemperatureAlarm";
  ParameterTraits.default_v :=
    {| HighTemperatureAlarm.threshold := F32.lit false 800 (-1) |};
  ParameterTraits.validate := validate;
  ParameterTraits.parse text out :=
    match text with
    | None => (false, out)
    | Some s =>
        let '(v, consumed) := strtof s in
        match consumed with
        | O => (false, out)
        | S _ =>
            let out' := {| HighTemperatureAlarm.threshold := v |} in
            (validate out', out')
        end
    end;
  ParameterTraits.serialize x out n :=
    snprintf out n (format_2f (HighTemperatureAlarm.threshold x))
|}.

End ParametersMin.

(* ===================================================================== *)
(** * Vocabulary of the properties *)
(* ===================================================================== *)

Module Store.
Import PropertyDemo.

(** The sizes that the [std::array] types fix: one slot per table
    entry, each buffer [kMaxPropertySize] bytes. *)
Definition well_sized (st : PropertyStore) : Prop :=
  length (slots st) = kPropertyCount /\
  Forall (fun s => length (Slot.buf s) = kMaxPropertySize) (slots st).

Definition in_range (id : PropertyID) : Prop :=
  (static_cast_size_t id < kPropertyCount)%nat.

(** The set operations of the store. [set<T>] is [setRaw] on the bytes
    of its argument. *)
Inductive setter : Type :=
| SetRaw (data : list byte) (sz : nat)
| SetTyped (T : Type) (R : ObjectRepr T) (v : T)
| SetFromText (text : cstring).

Definition apply (op : setter) (id : PropertyID) (st : PropertyStore)
    : outcome (bool * PropertyStore) :=
  match op with
  | SetRaw data sz => setRaw id data sz st
  | SetTyped T R v => set id v st
  | SetFromText text => setFromText id text st
  end.

(** [scratch_of h op tmp]: [tmp] is the scratch buffer that [op] fills
    and hands to [validate]. *)
Inductive scratch_of (h : PropertyHandler.t) : setter -> list byte -> Prop :=
| scratch_raw (data : list byte) (sz : nat) (tmp : list byte) :
    memcpy (repeat Byte.x00 kMaxPropertySize) data sz = Returns tmp ->
    scratch_of h (SetRaw data sz) tmp
| scratch_typed (T : Type) (R : ObjectRepr T) (v : T) (tmp : list byte) :
    memcpy (repeat Byte.x00 kMaxPropertySize) (to_bytes v) (sizeof T)
      = Returns tmp ->
    scratch_of h (SetTyped T R v) tmp
| scratch_text (text : cstring) (parse : PropertyHandler.ParseFn)
    (tmp : list byte) :
    PropertyHandler.parse h = Some parse ->
    parse text (repeat Byte.x00 kMaxPropertySize) = Returns (true, tmp) ->
    scratch_of h (SetFromText text) tmp.

(** [never_written id st]: [st] is a store that some sequence of set
    operations on a fresh store leads to, and none of those aimed at
    [id] returned true. *)
Inductive never_written (id : PropertyID) : PropertyStore -> Prop :=
| nw_fresh : never_written id PropertyStore_init
| nw_step (st st' : PropertyStore) (op : setter) (id' : PropertyID)
    (ok : bool) :
    never_written id st ->
    apply op id' st = Returns (ok, st') ->
    id' <> id \/ ok = false ->
    never_written id st'.

(** A store in which only the voltage has been written. *)
Definition voltage_only : PropertyStore :=
  match setFromText PropertyID.DeviceVoltage (Some "1015"%string)
          PropertyStore_init with
  | Returns (_, st) => st
  | _ => PropertyStore_init
  end.

(** The number a decimal numeral denotes, digit by digit, on top of the
    digits [acc] already read. *)
Fixpoint numeral_acc (d : Decimal.uint) (acc : Z) : Z :=
  match d with
  | Decimal.Nil => acc
  | Decimal.D0 l => numeral_acc l (acc * 10 + 0)
  | Decimal.D1 l => numeral_acc l (acc * 10 + 1)
  | Decimal.D2 l => numeral_acc l (acc * 10 + 2)
  | Decimal.D3 l => numeral_acc l (acc * 10 + 3)
  | Decimal.D4 l => numeral_acc l (acc * 10 + 4)
  | Decimal.D5 l => numeral_acc l (acc * 10 + 5)
  | Decimal.D6 l => numeral_acc l (acc * 10 + 6)
  | Decimal.D7 l => numeral_acc l (acc * 10 + 7)
  | Decimal.D8 l => numeral_acc l (acc * 10 + 8)
  | Decimal.D9 l => numeral_acc l (acc * 10 + 9)
  end.

(** The text has a prefix that [strtof], resp. [strtol], converts. *)
Definition numeric_prefix_float (text : cstring) : Prop :=
  exists s, text = Some s /\ snd (strtof s) <> O.

Definition numeric_prefix_int (text : cstring) : Prop :=
  exists s, text = Some s /\ snd (strtol s) <> O.

(** [reachable st]: some sequence of set operations leads from a fresh
    store to [st]. *)
Inductive reachable : PropertyStore -> Prop :=
| reach_fresh : reachable PropertyStore_init
| reach_step (st st' : PropertyStore) (op : setter) (id : PropertyID)
    (ok : bool) :
    reachable st ->
    apply op id st = Returns (ok, st') ->
    reachable st'.

(** A slot is as its handler wants it: the buffer has the slot capacity,
    and a slot that holds a value records the handler's size and holds
    bytes that the handler's [validate] accepts. *)
Definition slot_valid (h : PropertyHandler.t) (s : Slot.t) : Prop :=
  length (Slot.buf s) = kMaxPropertySize /\
  (Slot.has_value s = true ->
   Slot.sz s = PropertyHandler.size h /\
   PropertyHandler.validate h (Slot.buf s) = Returns true).

Definition store_valid (st : PropertyStore) : Prop :=
  length (slots st) = kPropertyCount /\
  forall (i : nat) (h : PropertyHandler.t) (s : Slot.t),
    nth_error kPropertyTable i = Some h ->
    nth_error (slots st) i = Some s ->
    slot_valid h s.

(** The text that [getAsText] renders from a slot's bytes. *)
Definition rendering (id : PropertyID) (buf : list byte) : string :=
  if (id =? PropertyID.TemperatureSetpoint)%N
  then format_2f (of_bytes (firstn 4 buf))
  else format_d (word.signed (of_bytes (T:=int16_t) (firstn 2 buf))).


(** The number a finite binary32 denotes, as the integer obtained by
    scaling it with [2 ^ 149]; nothing for a NaN or an infinity. *)
Definition scaled (f : spec_float) : option Z :=
  match f with
  | S754_zero _ => Some 0
  | S754_finite s m e => Some ((if s then - Zpos m else Zpos m) * 2 ^ (e + 149))
  | S754_infinity _ | S754_nan => None
  end.

(** The shape of the numbers that bit patterns denote: at most 24
    significant bits, exponent at least -149, and a full significand
    above the smallest exponent. *)
Definition canonical (f : spec_float) : Prop :=
  match f with
  | S754_finite _ m e =>
      Zpos m < 2 ^ 24 /\ -149 <= e /\ (-149 < e -> 2 ^ 23 <= Zpos m)
  | _ => True
  end.

(** The text consists of white space only. *)
Fixpoint all_spaces (s : string) : bool :=
  match s with
  | EmptyString => true
  | String c r => isspace c && all_spaces r
  end.

(** The text does not start with a decimal digit. *)
Definition no_leading_digit (s : string) : bool :=
  match s with
  | EmptyString => true
  | String c _ => match digit c with Some _ => false | None => true end
  end.

End Store.

(* ===================================================================== *)
(** * Basic facts *)
(* ===================================================================== *)

Import PropertyDemo Store.

Lemma bind_Returns {A B : Type} (c : outcome A) (k : A -> outcome B) (b : B) :
  bind c k = Returns b -> exists a, c = Returns a /\ k a = Returns b.
Proof. destruct c; simpl; intros E; try discriminate. eauto. Qed.

(** Splits a hypothesis [x <- c ;; k = Returns r] into its two steps. *)
Ltac unbind H :=
  let a := fresh "a" in
  let E := fresh "E" in
  apply bind_Returns in H; destruct H as (a & E & H).

Lemma length_assign {A : Type} (a : list A) (i : nat) (x : A) :
  length (assign a i x) = length a.
Proof.
  revert i; induction a as [|h t IH]; intros [|j]; simpl; auto.
Qed.

Lemma nth_error_assign_same {A : Type} (a : list A) (i : nat) (x : A) :
  (i < length a)%nat -> nth_error (assign a i x) i = Some x.
Proof.
  revert i; induction a as [|h t IH]; intros [|j] L; simpl in *;
    try lia; auto. apply IH; lia.
Qed.

Lemma nth_error_assign_other {A : Type} (a : list A) (i j : nat) (x : A) :
  j <> i -> nth_error (assign a i x) j = nth_error a j.
Proof.
  revert i j; induction a as [|h t IH]; intros [|i] [|j] N; simpl;
    try congruence; auto.
Qed.

Lemma Forall_assign {A : Type} (P : A -> Prop) (a : list A) (i : nat) (x : A) :
  Forall P a -> P x -> Forall P (assign a i x).
Proof.
  intros F Px; revert i; induction F as [|h t Ph Pt IH]; intros [|j]; simpl;
    constructor; auto.
Qed.

Lemma index_Returns {A : Type} (a : list A) (i : nat) (x : A) :
  index a i = Returns x <-> nth_error a i = Some x.
Proof.
  unfold index; destruct (nth_error a i); split; congruence.
Qed.

Lemma index_in_range {A : Type} (a : list A) (i : nat) :
  (i < length a)%nat -> exists x, index a i = Returns x.
Proof.
  intros L; unfold index. destruct (nth_error a i) eqn:E; eauto.
  apply nth_error_None in E; lia.
Qed.

Lemma index_out_of_range {A : Type} (a : list A) (i : nat) :
  (length a <= i)%nat -> index a i = Undefined.
Proof.
  intros L; unfold index. apply nth_error_None in L. now rewrite L.
Qed.

Lemma blit_Returns {A : Type} (src dst out : list A) :
  blit src dst = Returns out ->
  out = src ++ skipn (length src) dst /\ length out = length dst.
Proof.
  unfold blit. destruct (Nat.leb_spec (length src) (length dst)); intros E;
    inversion E; subst; split; auto.
  rewrite length_app, length_skipn. lia.
Qed.

Lemma blit_fits {A : Type} (src dst : list A) :
  (length src <= length dst)%nat ->
  blit src dst = Returns (src ++ skipn (length src) dst).
Proof.
  intros L; unfold blit. apply Nat.leb_le in L. now rewrite L.
Qed.

Lemma blit_whole {A : Type} (src dst : list A) :
  length src = length dst -> blit src dst = Returns src.
Proof.
  intros L. rewrite blit_fits by lia. rewrite L, skipn_all, List.app_nil_r.
  reflexivity.
Qed.

Lemma memcpy_fits (dst src : list byte) (n : nat) :
  (n <= length src)%nat -> (n <= length dst)%nat ->
  memcpy dst src n = Returns (firstn n src ++ skipn n dst).
Proof.
  intros Ls Ld; unfold memcpy. apply Nat.leb_le in Ls as Ls'. rewrite Ls'.
  rewrite blit_fits; rewrite length_firstn, Nat.min_l by lia; auto.
Qed.

Lemma memcpy_length (dst src out : list byte) (n : nat) :
  memcpy dst src n = Returns out -> length out = length dst.
Proof.
  unfold memcpy. destruct (n <=? length src)%nat; try discriminate.
  intros E; now apply blit_Returns in E.
Qed.

(** ** The runtime model on examples *)

Example strtol_examples :
  strtol "1015" = (1015, 4%nat) /\
  strtol "  -123abc" = (-123, 6%nat) /\
  strtol " +0012" = (12, 6%nat) /\
  strtol "" = (0, O) /\
  strtol "abc" = (0, O) /\
  strtol "-" = (0, O) /\
  strtol "0x10" = (0, 1%nat) /\
  strtol "99999999999999999999" = (LONG_MAX, 20%nat).
Proof. repeat split; vm_compute; reflexivity. Qed.

Example strtof_examples :
  strtof "37.5" = (F32.lit false 375 (-1), 4%nat) /\
  strtof "-1234" = (F32.lit true 1234 0, 5%nat) /\
  strtof "2e2 C" = (F32.lit false 200 0, 3%nat) /\
  strtof "1e" = (F32.lit false 1 0, 1%nat) /\
  strtof ".5" = (F32.lit false 5 (-1), 2%nat) /\
  strtof "0x1.8p1" = (F32.lit false 3 0, 7%nat) /\
  snd (strtof ".") = O /\
  snd (strtof "") = O /\
  snd (strtof "volts") = O /\
  word.unsigned (fst (strtof "0.1")) = 0x3DCCCCCD /\
  word.unsigned (fst (strtof "16777217")) = 0x4B800000 /\
  word.unsigned (fst (strtof "1e39")) = 0x7F800000 /\
  word.unsigned (fst (strtof "-inf")) = 0xFF800000 /\
  word.unsigned (fst (strtof "NaN")) = 0x7FC00000.
Proof. repeat split; vm_compute; reflexivity. Qed.

Example format_examples :
  format_d 0 = "0"%string /\
  format_d (-32768) = "-32768"%string /\
  format_2f (F32.lit false 375 (-1)) = "37.50"%string /\
  format_2f (F32.lit false 125 (-3)) = "0.12"%string /\
  format_2f (F32.lit false 375 (-3)) = "0.38"%string /\
  format_2f (F32.lit true 1 (-3)) = "-0.00"%string /\
  format_2f (F32.lit false 1 39) = "inf"%string.
Proof. repeat split; vm_compute; reflexivity. Qed.

Example snprintf_examples :
  snprintf (repeat "x"%char 8) 8 "37.50"
    = Returns (5, list_ascii_of_string "37.50" ++ [zero; "x"; "x"]%char) /\
  snprintf (repeat "x"%char 8) 3 "37.50"
    = Returns (5, ["3"; "7"; zero; "x"; "x"; "x"; "x"; "x"]%char) /\
  snprintf (repeat "x"%char 8) 0 "37.50" = Returns (5, repeat "x"%char 8) /\
  snprintf (repeat "x"%char 2) 8 "37.50" = Undefined.
Proof. repeat split; vm_compute; reflexivity. Qed.

(** ** Object representations *)

Lemma le_combine_small (b : list byte) (n : nat) :
  length b = n -> le_combine b mod 2 ^ (Z.of_nat n * 8) = le_combine b.
Proof.
  intros <-. apply Z.mod_small.
  replace (Z.of_nat (length b) * 8) with (8 * Z.of_nat (length b)) by lia.
  apply le_combine_bound.
Qed.

#[export] Instance float_repr_ok : ObjectReprOk float.
Proof.
  split; cbn [to_bytes of_bytes sizeof float_repr].
  - intros v. apply length_le_split.
  - intros v. rewrite le_combine_split.
    rewrite Z.mod_small by apply (word.unsigned_range v).
    apply word.of_Z_unsigned.
  - intros b L. rewrite word.unsigned_of_Z. unfold word.wrap.
    change (2 ^ 32) with (2 ^ (Z.of_nat 4 * 8)).
    rewrite (le_combine_small b 4 L). now apply split_le_combine'.
Qed.

#[export] Instance int16_repr_ok : ObjectReprOk int16_t.
Proof.
  split; cbn [to_bytes of_bytes sizeof int16_repr].
  - intros v. apply length_le_split.
  - intros v. rewrite le_combine_split.
    rewrite Z.mod_small by apply (word.unsigned_range v).
    apply word.of_Z_unsigned.
  - intros b L. rewrite word.unsigned_of_Z. unfold word.wrap.
    change (2 ^ 16) with (2 ^ (Z.of_nat 2 * 8)).
    rewrite (le_combine_small b 2 L). now apply split_le_combine'.
Qed.

#[export] Instance TemperatureSetpoint_repr_ok
  : ObjectReprOk TemperatureSetpoint.t.
Proof.
  split.
  - intros v. apply (length_to_bytes (T:=float)).
  - intros [v].
    cbn [of_bytes to_bytes TemperatureSetpoint_repr TemperatureSetpoint.value].
    f_equal. apply (of_to_bytes (T:=float)).
  - intros b L. apply (to_of_bytes (T:=float)). exact L.
Qed.

#[export] Instance DeviceVoltage_repr_ok
  : ObjectReprOk DeviceVoltage.t.
Proof.
  split.
  - intros v. apply (length_to_bytes (T:=int16_t)).
  - intros [v].
    cbn [of_bytes to_bytes DeviceVoltage_repr DeviceVoltage.value].
    f_equal. apply (of_to_bytes (T:=int16_t)).
  - intros b L. apply (to_of_bytes (T:=int16_t)). exact L.
Qed.

(* ===================================================================== *)
(** * The set operations *)
(* ===================================================================== *)

(** What a returning [setRaw] has done: nothing, or every step of the
    commit. *)
Lemma setRaw_inv id data sz st ok st' :
  setRaw id data sz st = Returns (ok, st') ->
  (ok = false /\ st' = st) \/
  (ok = true /\
   exists h tmp s buf',
     handler id = Returns h /\
     sz = PropertyHandler.size h /\
     memcpy (repeat Byte.x00 kMaxPropertySize) data sz = Returns tmp /\
     PropertyHandler.validate h tmp = Returns true /\
     index (slots st) (static_cast_size_t id) = Returns s /\
     memcpy (Slot.buf s) data sz = Returns buf' /\
     st' = {| slots := assign (slots st) (static_cast_size_t id)
                         {| Slot.buf := buf'; Slot.sz := sz;
                            Slot.has_value := true |} |}).
Proof.
  unfold setRaw. intros H. unbind H. rename a into h.
  destruct (Nat.eqb_spec sz (PropertyHandler.size h)) as [Esz|Nsz];
    cbn [negb] in H.
  2:{ left. inversion H. auto. }
  unbind H. rename a into tmp. unbind H. rename a into valid.
  destruct valid; cbn [negb] in H.
  2:{ left. inversion H. auto. }
  unbind H. rename a into s. unbind H. rename a into buf'.
  inversion H; subst ok st'. right. split; [reflexivity|].
  exists h, tmp, s, buf'. repeat split; assumption.
Qed.

Lemma setFromText_inv id text st ok st' :
  setFromText id text st = Returns (ok, st') ->
  (ok = false /\ st' = st) \/
  (ok = true /\
   exists h parse tmp s buf',
     handler id = Returns h /\
     PropertyHandler.parse h = Some parse /\
     parse text (repeat Byte.x00 kMaxPropertySize) = Returns (true, tmp) /\
     PropertyHandler.validate h tmp = Returns true /\
     index (slots st) (static_cast_size_t id) = Returns s /\
     memcpy (Slot.buf s) tmp (PropertyHandler.size h) = Returns buf' /\
     st' = {| slots := assign (slots st) (static_cast_size_t id)
                         {| Slot.buf := buf';
                            Slot.sz := PropertyHandler.size h;
                            Slot.has_value := true |} |}).
Proof.
  unfold setFromText. intros H. unbind H. rename a into h.
  destruct (PropertyHandler.parse h) as [parse|] eqn:Ep.
  2:{ left. inversion H. auto. }
  unbind H. destruct a as [parsed tmp].
  destruct parsed; cbn [negb] in H.
  2:{ left. inversion H. auto. }
  unbind H. rename a into valid.
  destruct valid; cbn [negb] in H.
  2:{ left. inversion H. auto. }
  unbind H. rename a into s. unbind H. rename a into buf'.
  inversion H; subst ok st'. right. split; [reflexivity|].
  exists h, parse, tmp, s, buf'. repeat split; assumption.
Qed.

(** C1. Every set operation is all-or-nothing. A [setRaw], [set] or
    [setFromText] that returns false (wrong size, failed parse, failed
    validation) returns the store it was given: the buffer, the recorded
    length and the presence flag of every slot, the target's included and
    a never-written one included, are what they were. One that returns
    true has first had [validate] return true on its scratch copy, and
    has touched no slot but its target. *)
Theorem set_is_all_or_nothing (op : setter) (id : PropertyID)
    (st st' : PropertyStore) (ok : bool) :
  apply op id st = Returns (ok, st') ->
  (ok = false -> st' = st) /\
  (ok = true ->
   exists h tmp,
     handler id = Returns h /\
     scratch_of h op tmp /\
     PropertyHandler.validate h tmp = Returns true /\
     forall j, j <> static_cast_size_t id ->
       nth_error (slots st') j = nth_error (slots st) j).
Proof.
  intros H. destruct op as [data sz|T R v|text]; cbn [apply] in H.
  - apply setRaw_inv in H.
    destruct H as [[-> ->]|[-> (h & tmp & s & buf' & Hh & _ & Ht & Hv & _ & _ & ->)]].
    + split; [reflexivity|discriminate].
    + split; [discriminate|intros _].
      exists h, tmp. repeat split; auto.
      * now constructor.
      * intros j Nj. cbn [slots]. now apply nth_error_assign_other.
  - unfold set in H. apply setRaw_inv in H.
    destruct H as [[-> ->]|[-> (h & tmp & s & buf' & Hh & _ & Ht & Hv & _ & _ & ->)]].
    + split; [reflexivity|discriminate].
    + split; [discriminate|intros _].
      exists h, tmp. repeat split; auto.
      * now constructor.
      * intros j Nj. cbn [slots]. now apply nth_error_assign_other.
  - apply setFromText_inv in H.
    destruct H as [[-> ->]|[-> (h & parse & tmp & s & buf' & Hh & Hp & Ht & Hv & _ & _ & ->)]].
    + split; [reflexivity|discriminate].
    + split; [discriminate|intros _].
      exists h, tmp. repeat split; auto.
      * econstructor; eassumption.
      * intros j Nj. cbn [slots]. now apply nth_error_assign_other.
Qed.

Lemma set_is_all_or_nothing_witness :
  let bad := {| TemperatureSetpoint.value := F32.lit true 1234 0 |} in
  let op := SetTyped TemperatureSetpoint.t _ bad in
  apply op PropertyID.TemperatureSetpoint PropertyStore_init
    = Returns (false, PropertyStore_init) /\
  ((false = false -> PropertyStore_init = PropertyStore_init) /\
   (false = true ->
    exists h tmp,
      handler PropertyID.TemperatureSetpoint = Returns h /\
      scratch_of h op tmp /\
      PropertyHandler.validate h tmp = Returns true /\
      forall j, j <> static_cast_size_t PropertyID.TemperatureSetpoint ->
        nth_error (slots PropertyStore_init) j
        = nth_error (slots PropertyStore_init) j)).
Proof.
  intros bad op. split.
  - vm_compute. reflexivity.
  - apply (set_is_all_or_nothing op PropertyID.TemperatureSetpoint
             PropertyStore_init PropertyStore_init false).
    vm_compute. reflexivity.
Defined.

(* ===================================================================== *)
(** * The typed round trip *)
(* ===================================================================== *)

Lemma firstn_exact {A : Type} (a b : list A) (n : nat) :
  length a = n -> firstn n (a ++ b) = a.
Proof.
  intros <-. induction a as [|h t IH]; simpl; [now destruct b|now f_equal].
Qed.

Lemma firstn_whole {A : Type} (a : list A) (n : nat) :
  length a = n -> firstn n a = a.
Proof. intros <-. apply firstn_all. Qed.

Lemma skipn_whole {A : Type} (a : list A) (n : nat) :
  length a = n -> skipn n a = [].
Proof. intros <-. apply skipn_all. Qed.

(** No entry of the table is larger than a slot. *)
Lemma size_le_max (h : PropertyHandler.t) :
  In h kPropertyTable ->
  (PropertyHandler.size h <= kMaxPropertySize)%nat.
Proof.
  unfold kPropertyTable. simpl.
  intros [<-|[<-|[]]]; vm_compute; lia.
Qed.

Lemma handler_in_table (id : PropertyID) (h : PropertyHandler.t) :
  handler id = Returns h ->
  In h kPropertyTable /\ in_range id.
Proof.
  unfold handler, in_range, kPropertyCount. intros H.
  apply index_Returns in H. split.
  - eapply nth_error_In; eassumption.
  - apply nth_error_Some. congruence.
Qed.

Section RoundTrip.
Context (T : Type) {Tr : PropertyTraits.t T} {R : ObjectRepr T}
        {Rok : ObjectReprOk T}.

(** Reading a [T] back from storage that starts with its bytes. *)
Lemma load_to_bytes (v : T) (rest : list byte) :
  load T (to_bytes v ++ rest) = Returns v.
Proof.
  unfold load. rewrite length_app, length_to_bytes.
  replace (sizeof T <=? sizeof T + length rest)%nat with true
    by (symmetry; apply Nat.leb_le; lia).
  rewrite firstn_exact by apply length_to_bytes.
  now rewrite of_to_bytes.
Qed.

Lemma memcpy_to_bytes (v : T) (dst : list byte) :
  (sizeof T <= length dst)%nat ->
  memcpy dst (to_bytes v) (sizeof T)
  = Returns (to_bytes v ++ skipn (sizeof T) dst).
Proof.
  intros L. rewrite memcpy_fits by (rewrite ?length_to_bytes; lia).
  now rewrite firstn_whole by apply length_to_bytes.
Qed.

Lemma set_then_get (id : PropertyID) (v : T) (st : PropertyStore) :
  well_sized st ->
  handler id = Returns (makeHandler T) ->
  PropertyTraits.validate v = true ->
  exists st',
    set id v st = Returns (true, st') /\
    well_sized st' /\
    (forall out : list byte, length out = sizeof T ->
       getRaw id out (sizeof T) st' = Returns (true, to_bytes v)) /\
    (forall out : T, get id out st' = Returns (true, v)).
Proof.
  intros [Hlen Hbuf] Hh Hv.
  destruct (handler_in_table _ _ Hh) as [Hin Hr].
  apply size_le_max in Hin. cbn [makeHandler PropertyHandler.size] in Hin.
  destruct (index_in_range (slots st) (static_cast_size_t id)) as [s Hs];
    [unfold in_range in Hr; lia|].
  assert (Ls : length (Slot.buf s) = kMaxPropertySize).
  { apply index_Returns, nth_error_In in Hs.
    now apply (proj1 (Forall_forall _ _) Hbuf). }
  set (buf' := to_bytes v ++ skipn (sizeof T) (Slot.buf s)).
  set (s' := {| Slot.buf := buf'; Slot.sz := sizeof T;
                Slot.has_value := true |}).
  assert (Lb : length buf' = kMaxPropertySize).
  { unfold buf'. rewrite length_app, length_skipn, length_to_bytes. lia. }
  set (st' := {| slots := assign (slots st) (static_cast_size_t id) s' |}).
  assert (Hraw : forall out : list byte, length out = sizeof T ->
            getRaw id out (sizeof T) st' = Returns (true, to_bytes v)).
  { intros out Lo. unfold getRaw. cbn [slots st'].
    replace (index (assign (slots st) (static_cast_size_t id) s')
               (static_cast_size_t id)) with (Returns s').
    2:{ symmetry. apply index_Returns, nth_error_assign_same.
        unfold in_range in Hr. lia. }
    cbn [bind s' Slot.has_value Slot.sz Slot.buf negb orb].
    rewrite Nat.eqb_refl. cbn [negb].
    rewrite memcpy_fits by lia.
    cbn [bind]. f_equal. f_equal. unfold buf'.
    rewrite firstn_exact by apply length_to_bytes.
    rewrite skipn_whole by exact Lo.
    apply List.app_nil_r. }
  exists st'. split; [|split; [|split]].
  - unfold set, setRaw. rewrite Hh. cbn [bind makeHandler PropertyHandler.size
      PropertyHandler.validate].
    rewrite Nat.eqb_refl. cbn [negb].
    rewrite memcpy_to_bytes by (rewrite repeat_length; exact Hin).
    cbn [bind]. rewrite load_to_bytes. cbn [bind]. rewrite Hv. cbn [negb].
    rewrite Hs. cbn [bind].
    rewrite memcpy_to_bytes by lia. reflexivity.
  - split; cbn [slots st'].
    + now rewrite length_assign.
    + apply Forall_assign; auto.
  - exact Hraw.
  - intros out. unfold get. rewrite Hraw by apply length_to_bytes.
    cbn [bind]. now rewrite of_to_bytes.
Qed.
End RoundTrip.

(** C2. Typed round trip. For every identifier [id] and every value [v]
    of the type bound to [id] (the type [T] whose handler the table holds
    at [id]) that satisfies [validate], [set(id, v)] returns true and a
    following [get(id, out)] with the same type returns true with [out]
    equal to [v], byte for byte: the bytes [getRaw] copies out are the
    bytes of [v]. *)
Theorem typed_round_trip (T : Type) {Tr : PropertyTraits.t T}
    {R : ObjectRepr T} {Rok : ObjectReprOk T}
    (id : PropertyID) (v out : T) (st : PropertyStore) :
  well_sized st ->
  handler id = Returns (makeHandler T) ->
  PropertyTraits.validate v = true ->
  exists st',
    set id v st = Returns (true, st') /\
    get id out st' = Returns (true, v) /\
    getRaw id (to_bytes out) (sizeof T) st' = Returns (true, to_bytes v).
Proof.
  intros W Hh Hv.
  destruct (set_then_get T id v st W Hh Hv) as (st' & Hs & _ & Hr & Hg).
  exists st'. repeat split; auto. apply Hr, length_to_bytes.
Qed.

Lemma well_sized_init : well_sized PropertyStore_init.
Proof. split; [reflexivity|]. repeat constructor. Qed.

Lemma typed_round_trip_witness :
  let v := PropertyTraits.default_v TemperatureSetpoint.t in
  let out := {| TemperatureSetpoint.value := word.of_Z 0 |} in
  exists st',
    set PropertyID.TemperatureSetpoint v PropertyStore_init
      = Returns (true, st') /\
    get PropertyID.TemperatureSetpoint out st' = Returns (true, v) /\
    getRaw PropertyID.TemperatureSetpoint (to_bytes out)
      (sizeof TemperatureSetpoint.t) st' = Returns (true, to_bytes v).
Proof.
  intros v out.
  apply (typed_round_trip TemperatureSetpoint.t
           PropertyID.TemperatureSetpoint v out PropertyStore_init).
  - exact well_sized_init.
  - reflexivity.
  - vm_compute. reflexivity.
Defined.

(* ===================================================================== *)
(** * Reading *)
(* ===================================================================== *)

(** What a returning set operation has done to the store. *)
Lemma apply_inv (op : setter) (id : PropertyID) (st st' : PropertyStore)
    (ok : bool) :
  apply op id st = Returns (ok, st') ->
  (ok = false /\ st' = st) \/
  (ok = true /\
   exists s buf' sz,
     index (slots st) (static_cast_size_t id) = Returns s /\
     length buf' = length (Slot.buf s) /\
     st' = {| slots := assign (slots st) (static_cast_size_t id)
                         {| Slot.buf := buf'; Slot.sz := sz;
                            Slot.has_value := true |} |}).
Proof.
  intros H.
  assert (R : forall data sz, setRaw id data sz st = Returns (ok, st') ->
    (ok = false /\ st' = st) \/
    (ok = true /\
     exists s buf' sz,
       index (slots st) (static_cast_size_t id) = Returns s /\
       length buf' = length (Slot.buf s) /\
       st' = {| slots := assign (slots st) (static_cast_size_t id)
                           {| Slot.buf := buf'; Slot.sz := sz;
                              Slot.has_value := true |} |})).
  { intros data sz E. apply setRaw_inv in E.
    destruct E as [E|[-> (h & tmp & s & buf' & _ & _ & _ & _ & Hs & Hm & ->)]];
      [now left|right].
    split; [reflexivity|]. exists s, buf', sz.
    apply memcpy_length in Hm. auto. }
  destruct op as [data sz|T R' v|text]; cbn [apply] in H.
  - eapply R; eassumption.
  - eapply R; eassumption.
  - apply setFromText_inv in H.
    destruct H as [E|[-> (h & p & tmp & s & buf' & _ & _ & _ & _ & Hs & Hm & ->)]];
      [now left|right].
    split; [reflexivity|]. exists s, buf', (PropertyHandler.size h).
    apply memcpy_length in Hm. auto.
Qed.

Lemma apply_well_sized (op : setter) (id : PropertyID)
    (st st' : PropertyStore) (ok : bool) :
  apply op id st = Returns (ok, st') -> well_sized st -> well_sized st'.
Proof.
  intros H [Hl Hb]. apply apply_inv in H.
  destruct H as [[_ ->]|[_ (s & buf' & sz & Hs & Lb & ->)]]; [now split|].
  split; cbn [slots].
  - now rewrite length_assign.
  - apply Forall_assign; auto. cbn [Slot.buf]. rewrite Lb.
    apply index_Returns, nth_error_In in Hs.
    now apply (proj1 (Forall_forall _ _) Hb).
Qed.

Lemma never_written_well_sized (id : PropertyID) (st : PropertyStore) :
  never_written id st -> well_sized st.
Proof.
  induction 1 as [|st st' op id' ok _ IH H _].
  - exact well_sized_init.
  - eapply apply_well_sized; eassumption.
Qed.

(** The slot of a never-written identifier is still empty. *)
Lemma never_written_slot (id : PropertyID) (st : PropertyStore) (s : Slot.t) :
  never_written id st ->
  index (slots st) (static_cast_size_t id) = Returns s ->
  Slot.has_value s = false.
Proof.
  intros H; revert s.
  induction H as [|st st' op id' ok _ IH H C]; intros s Hs.
  - apply index_Returns, nth_error_In in Hs.
    cbn [slots PropertyStore_init] in Hs. apply repeat_spec in Hs.
    now subst s.
  - apply apply_inv in H.
    destruct H as [[_ ->]|[-> (s0 & buf' & sz & _ & _ & ->)]]; [auto|].
    destruct C as [N|]; [|discriminate].
    apply IH. cbn [slots] in Hs. apply index_Returns in Hs.
    apply index_Returns. rewrite <- Hs. symmetry.
    apply nth_error_assign_other.
    unfold static_cast_size_t. intros E. apply N2Nat.inj in E. congruence.
Qed.

(** C5. Read-before-write fails. For an identifier in range whose slot no
    set operation has successfully written, [getRaw] and [get] return
    false and [getAsText] returns -1, each leaving the output as it was;
    and on any store, [getRaw] and [get] return false and leave the output
    as it was when the slot's recorded length is not the requested size. *)
Theorem read_before_write_fails (id : PropertyID) (st : PropertyStore) :
  in_range id ->
  (never_written id st ->
   (forall out sz, getRaw id out sz st = Returns (false, out)) /\
   (forall (T : Type) (R : ObjectRepr T) (Rok : ObjectReprOk T) (out : T),
      get id out st = Returns (false, out)) /\
   (forall out n, getAsText id out n st = Returns (-1, out))) /\
  (forall s, index (slots st) (static_cast_size_t id) = Returns s ->
   (forall out sz, Slot.sz s <> sz ->
      getRaw id out sz st = Returns (false, out)) /\
   (forall (T : Type) (R : ObjectRepr T) (Rok : ObjectReprOk T) (out : T),
      Slot.sz s <> sizeof T -> get id out st = Returns (false, out))).
Proof.
  intros Hr. split.
  - intros Hn.
    destruct (never_written_well_sized _ _ Hn) as [Hl _].
    destruct (index_in_range (slots st) (static_cast_size_t id)) as [s Hs];
      [unfold in_range in Hr; lia|].
    pose proof (never_written_slot _ _ _ Hn Hs) as He.
    assert (Hraw : forall out sz, getRaw id out sz st = Returns (false, out)).
    { intros out sz. unfold getRaw. rewrite Hs. cbn [bind]. now rewrite He. }
    split; [exact Hraw|split].
    + intros T R Rok out. unfold get. rewrite Hraw. cbn [bind].
      now rewrite of_to_bytes.
    + intros out n. unfold getAsText.
      destruct (index_in_range kPropertyTable (static_cast_size_t id))
        as [h Hh]; [exact Hr|].
      unfold handler. rewrite Hh, Hs. cbn [bind]. rewrite He.
      now destruct (PropertyHandler.serialize h).
  - intros s Hs.
    assert (Hraw : forall out sz, Slot.sz s <> sz ->
              getRaw id out sz st = Returns (false, out)).
    { intros out sz N. unfold getRaw. rewrite Hs. cbn [bind].
      apply Nat.eqb_neq in N. rewrite N. cbn [negb].
      now rewrite orb_true_r. }
    split; [exact Hraw|].
    intros T R Rok out N. unfold get. rewrite Hraw by exact N. cbn [bind].
    now rewrite of_to_bytes.
Qed.

Lemma read_before_write_fails_witness :
  let id := PropertyID.TemperatureSetpoint in
  in_range id /\
  never_written id voltage_only /\
  (forall out sz, getRaw id out sz voltage_only = Returns (false, out)) /\
  (forall out n, getAsText id out n voltage_only = Returns (-1, out)).
Proof.
  intros id.
  assert (Hr : in_range id) by (unfold in_range; vm_compute; lia).
  assert (Hn : never_written id voltage_only).
  { apply (nw_step id PropertyStore_init voltage_only
             (SetFromText (Some "1015"%string)) PropertyID.DeviceVoltage true).
    - apply nw_fresh.
    - vm_compute. reflexivity.
    - left. discriminate. }
  destruct (read_before_write_fails id voltage_only Hr) as [H _].
  destruct (H Hn) as (Hraw & _ & Htext).
  repeat split; assumption.
Defined.

(* ===================================================================== *)
(** * The handler table *)
(* ===================================================================== *)

Lemma in_range_cases (id : PropertyID) :
  in_range id <->
  id = PropertyID.TemperatureSetpoint \/ id = PropertyID.DeviceVoltage.
Proof.
  unfold in_range, static_cast_size_t, PropertyID.TemperatureSetpoint,
    PropertyID.DeviceVoltage.
  change kPropertyCount with 2%nat. lia.
Qed.

(** C4. The handler table has one entry per enumerator of [PropertyID],
    the enumerators' ordinals are the table's positions, and the entry at
    each identifier in range is the handler made from the value type
    bound to it, whose declared size is the [sizeof] of that type. *)
Theorem handler_table_invariant :
  kPropertyCount = length PropertyID.enumerators /\
  map static_cast_size_t PropertyID.enumerators = seq 0 kPropertyCount /\
  (forall (T : Type) (Tr : PropertyTraits.t T) (R : ObjectRepr T),
     PropertyHandler.size (makeHandler T) = sizeof T) /\
  (forall id, in_range id <-> In id PropertyID.enumerators) /\
  (exists h,
     handler PropertyID.TemperatureSetpoint = Returns h /\
     h = makeHandler TemperatureSetpoint.t /\
     PropertyHandler.name h = "TemperatureSetpoint"%string /\
     PropertyHandler.size h = sizeof TemperatureSetpoint.t /\
     PropertyHandler.size h = 4%nat) /\
  (exists h,
     handler PropertyID.DeviceVoltage = Returns h /\
     h = makeHandler DeviceVoltage.t /\
     PropertyHandler.name h = "DeviceVoltage"%string /\
     PropertyHandler.size h = sizeof DeviceVoltage.t /\
     PropertyHandler.size h = 2%nat).
Proof.
  split; [reflexivity|]. split; [reflexivity|]. split; [reflexivity|].
  split.
  - intros id. rewrite in_range_cases. simpl. intuition congruence.
  - split; eexists; (split; [reflexivity|]); repeat split.
Qed.

(** C9 as stated does not hold: the lookup of an identifier past the end
    of the table is not a checked failure. *)
Lemma out_of_range_lookup_is_unchecked :
  ~ in_range 2%N /\ handler 2%N = Undefined /\ handler 2%N <> Aborts.
Proof.
  split; [|split].
  - unfold in_range. vm_compute. lia.
  - reflexivity.
  - discriminate.
Qed.

(** C9, amended. The lookup is an unchecked array index: it returns an
    entry, the one at the identifier's ordinal, exactly when the
    identifier is in the range of the table; for an identifier out of
    range it reads past the table, which is undefined; it never stops
    with a diagnostic. *)
Theorem handler_lookup (id : PropertyID) :
  (in_range id <->
   exists h, handler id = Returns h /\
             nth_error kPropertyTable (static_cast_size_t id) = Some h) /\
  (~ in_range id <-> handler id = Undefined) /\
  handler id <> Aborts.
Proof.
  unfold handler, index, in_range, kPropertyCount.
  destruct (nth_error kPropertyTable (static_cast_size_t id)) as [h|] eqn:E.
  - assert (L : (static_cast_size_t id < length kPropertyTable)%nat)
      by (apply nth_error_Some; congruence).
    repeat split; try discriminate; eauto. intros N. contradiction.
  - apply nth_error_None in E.
    repeat split; try discriminate; try lia.
    intros (h & H & _). discriminate.
Qed.

(* ===================================================================== *)
(** * Defaults *)
(* ===================================================================== *)

(** The [float] literals of the source denote the numbers written. *)
Example float_literals :
  F32.val (F32.lit false 230 (-1)) = S754_finite false (23 * 2 ^ 19) (-19) /\
  F32.val (F32.lit true 500 (-1)) = S754_finite true (50 * 2 ^ 18) (-18) /\
  F32.val (F32.lit false 1500 (-1)) = S754_finite false (150 * 2 ^ 16) (-16) /\
  F32.val (F32.lit false 375 (-1)) = S754_finite false (75 * 2 ^ 17) (-18) /\
  F32.val (F32.lit false 800 (-1)) = S754_finite false (80 * 2 ^ 17) (-17) /\
  F32.val (F32.lit false 1000 (-1)) = S754_finite false (100 * 2 ^ 17) (-17) /\
  F32.val (F32.lit true 1234 0) = S754_finite true (1234 * 2 ^ 13) (-13) /\
  F32.val (F32.lit false 0 (-1)) = S754_zero false.
Proof. repeat split; vm_compute; reflexivity. Qed.

(** C6. The default value of every registered value type satisfies that
    type's [validate]: both [PropertyTraits] specialisations and both
    [ParameterTraits] specialisations. *)
Theorem default_is_valid :
  PropertyTraits.validate (PropertyTraits.default_v TemperatureSetpoint.t)
    = true /\
  PropertyTraits.validate (PropertyTraits.default_v DeviceVoltage.t)
    = true /\
  ParametersMin.ParameterTraits.validate
    (ParametersMin.ParameterTraits.default_v
       ParametersMin.TemperatureSetpoint.t) = true /\
  ParametersMin.ParameterTraits.validate
    (ParametersMin.ParameterTraits.default_v
       ParametersMin.HighTemperatureAlarm.t) = true.
Proof. repeat split; vm_compute; reflexivity. Qed.

(* ===================================================================== *)
(** * Text: null pointers, the setpoint scenario, the voltage codec *)
(* ===================================================================== *)

(** C10. Every per-type [parse] returns false on a null text pointer and
    leaves its out-parameter alone, so [setFromText] with a null pointer
    returns false and returns the store it was given, for every identifier
    in range. *)
Theorem null_text_is_rejected (id : PropertyID) (st : PropertyStore) :
  in_range id ->
  (forall out : TemperatureSetpoint.t,
     PropertyTraits.parse None out = (false, out)) /\
  (forall out : DeviceVoltage.t,
     PropertyTraits.parse None out = (false, out)) /\
  (forall out : ParametersMin.TemperatureSetpoint.t,
     ParametersMin.ParameterTraits.parse None out = (false, out)) /\
  (forall out : ParametersMin.HighTemperatureAlarm.t,
     ParametersMin.ParameterTraits.parse None out = (false, out)) /\
  setFromText id None st = Returns (false, st).
Proof.
  intros Hr. repeat split.
  apply in_range_cases in Hr. destruct Hr as [->| ->]; vm_compute; reflexivity.
Qed.

Lemma null_text_is_rejected_witness :
  in_range PropertyID.DeviceVoltage /\
  setFromText PropertyID.DeviceVoltage None voltage_only
  = Returns (false, voltage_only).
Proof.
  assert (Hr : in_range PropertyID.DeviceVoltage)
    by (unfold in_range; vm_compute; lia).
  split; [exact Hr|].
  apply (null_text_is_rejected PropertyID.DeviceVoltage voltage_only Hr).
Defined.

(** A [setFromText] whose parse and validation pass commits the first
    [size] bytes of the scratch buffer. *)
Lemma setFromText_commit (id : PropertyID) (text : cstring)
    (st : PropertyStore) (h : PropertyHandler.t)
    (parse : PropertyHandler.ParseFn) (tmp : list byte) :
  well_sized st ->
  handler id = Returns h ->
  PropertyHandler.parse h = Some parse ->
  parse text (repeat Byte.x00 kMaxPropertySize) = Returns (true, tmp) ->
  length tmp = kMaxPropertySize ->
  PropertyHandler.validate h tmp = Returns true ->
  exists s,
    index (slots st) (static_cast_size_t id) = Returns s /\
    setFromText id text st =
    Returns (true,
             {| slots := assign (slots st) (static_cast_size_t id)
                  {| Slot.buf := firstn (PropertyHandler.size h) tmp
                                 ++ skipn (PropertyHandler.size h) (Slot.buf s);
                     Slot.sz := PropertyHandler.size h;
                     Slot.has_value := true |} |}).
Proof.
  intros [Hl Hb] Hh Hp Ht Lt Hv.
  destruct (handler_in_table _ _ Hh) as [Hin Hr].
  apply size_le_max in Hin.
  destruct (index_in_range (slots st) (static_cast_size_t id)) as [s Hs];
    [unfold in_range in Hr; lia|].
  assert (Ls : length (Slot.buf s) = kMaxPropertySize).
  { apply index_Returns, nth_error_In in Hs.
    now apply (proj1 (Forall_forall _ _) Hb). }
  exists s. split; [exact Hs|].
  unfold setFromText. rewrite Hh. cbn [bind]. rewrite Hp, Ht. cbn [bind negb].
  rewrite Hv. cbn [bind negb]. rewrite Hs. cbn [bind].
  rewrite memcpy_fits by lia. reflexivity.
Qed.

(** [getAsText] on a slot of the temperature setpoint that holds a
    value. *)
Lemma getAsText_setpoint (st : PropertyStore) (s : Slot.t)
    (out : list ascii) (n : nat) (x : TemperatureSetpoint.t) :
  index (slots st) (static_cast_size_t PropertyID.TemperatureSetpoint)
    = Returns s ->
  Slot.has_value s = true ->
  load TemperatureSetpoint.t (Slot.buf s) = Returns x ->
  getAsText PropertyID.TemperatureSetpoint out n st
  = snprintf out n (format_2f (TemperatureSetpoint.value x)).
Proof.
  intros Hs Hv Hx. unfold getAsText.
  change (handler PropertyID.TemperatureSetpoint)
    with (Returns (makeHandler TemperatureSetpoint.t)).
  cbn [bind]. rewrite Hs.
  cbn [bind makeHandler PropertyHandler.serialize]. rewrite Hv. cbn [negb].
  rewrite Hx. reflexivity.
Qed.

(** [snprintf] into a buffer with room for the whole text. *)
Lemma snprintf_fits (out : list ascii) (n : nat) (text : string) :
  (String.length text < n)%nat -> (n <= length out)%nat ->
  exists out',
    snprintf out n text = Returns (Z.of_nat (String.length text), out') /\
    c_str out' = c_str (list_ascii_of_string text).
Proof.
  intros Ln Lo. unfold snprintf. destruct n as [|k]; [lia|].
  assert (Lc : length (list_ascii_of_string text) = String.length text).
  { clear. induction text; simpl; auto. }
  rewrite firstn_all2 by lia. rewrite Lc.
  rewrite blit_fits by (rewrite length_app, Lc; simpl; lia).
  cbn [bind]. eexists. split; [reflexivity|].
  rewrite <- List.app_assoc.
  generalize (skipn (length (list_ascii_of_string text ++ [zero])) out).
  generalize (list_ascii_of_string text).
  intros l rest. induction l as [|c l IH]; simpl in *; [reflexivity|].
  destruct (Ascii.eqb c zero); [reflexivity|]. now rewrite IH.
Qed.

(** The commit of the text 37.5 to the temperature setpoint. *)
Lemma setFromText_37_5 (st : PropertyStore) :
  well_sized st ->
  exists s,
    index (slots st) (static_cast_size_t PropertyID.TemperatureSetpoint)
      = Returns s /\
    setFromText PropertyID.TemperatureSetpoint (Some "37.5"%string) st =
    Returns (true,
             {| slots := assign (slots st)
                  (static_cast_size_t PropertyID.TemperatureSetpoint)
                  {| Slot.buf := to_bytes (F32.lit false 375 (-1));
                     Slot.sz := 4;
                     Slot.has_value := true |} |}).
Proof.
  intros W.
  destruct (setFromText_commit PropertyID.TemperatureSetpoint
              (Some "37.5"%string) st
              (makeHandler TemperatureSetpoint.t)
              (fun text out =>
                 x <- load TemperatureSetpoint.t out ;;
                 let '(ok, x') := PropertyTraits.parse text x in
                 out' <- store x' out ;; Returns (ok, out'))
              (to_bytes (F32.lit false 375 (-1))) W)
    as (s & Hs & Hset).
  - reflexivity.
  - reflexivity.
  - vm_compute. reflexivity.
  - reflexivity.
  - vm_compute. reflexivity.
  - exists s. split; [exact Hs|]. rewrite Hset.
    assert (Ls : length (Slot.buf s) = 4%nat).
    { destruct W as [_ Hb]. apply index_Returns, nth_error_In in Hs.
      now apply (proj1 (Forall_forall _ _) Hb). }
    change (PropertyHandler.size (makeHandler TemperatureSetpoint.t))
      with 4%nat.
    rewrite (skipn_whole (Slot.buf s) 4 Ls), List.app_nil_r.
    rewrite firstn_whole by reflexivity. reflexivity.
Qed.

(** C7. The concrete scenario on the temperature setpoint (domain
    [-50, 150], default 23.0). On any store, [setFromText(id, "37.5")]
    returns true and [getAsText] then yields the text "37.50"; after that
    [set(id, TemperatureSetpoint{-1234.0})] returns false, and [getAsText]
    still yields "37.50". The text buffer has room for six characters. *)
Theorem setpoint_scenario (st : PropertyStore) (out : list ascii) (n : nat) :
  well_sized st -> (6 <= n)%nat -> (n <= length out)%nat ->
  let id := PropertyID.TemperatureSetpoint in
  let bad := {| TemperatureSetpoint.value := F32.lit true 12340 (-1) |} in
  TemperatureSetpoint.value (PropertyTraits.default_v TemperatureSetpoint.t)
    = F32.lit false 230 (-1) /\
  exists st1 out1 st2 out2,
    setFromText id (Some "37.5"%string) st = Returns (true, st1) /\
    getAsText id out n st1 = Returns (5, out1) /\
    c_str out1 = "37.50"%string /\
    set id bad st1 = Returns (false, st2) /\
    getAsText id out n st2 = Returns (5, out2) /\
    c_str out2 = "37.50"%string.
Proof.
  intros W Ln Lo id bad. split; [reflexivity|].
  destruct (setFromText_37_5 st W) as (s & Hs & Hset).
  set (st1 := {| slots := _ |}) in Hset.
  destruct (snprintf_fits out n "37.50"%string) as (out1 & Hp & Hc);
    [simpl; lia|exact Lo|].
  assert (Hget : getAsText id out n st1 = Returns (5, out1)).
  { rewrite getAsText_setpoint
      with (s := {| Slot.buf := to_bytes (F32.lit false 375 (-1));
                    Slot.sz := 4; Slot.has_value := true |})
           (x := {| TemperatureSetpoint.value := F32.lit false 375 (-1) |}).
    - exact Hp.
    - apply index_Returns. cbn [slots st1]. apply nth_error_assign_same.
      apply index_Returns in Hs. apply nth_error_Some. congruence.
    - reflexivity.
    - vm_compute. reflexivity. }
  assert (Hbad : set id bad st1 = Returns (false, st1)).
  { unfold set, setRaw.
    change (handler id) with (Returns (makeHandler TemperatureSetpoint.t)).
    cbn [bind]. reflexivity. }
  exists st1, out1, st1, out1. repeat split; assumption.
Qed.

Lemma setpoint_scenario_witness :
  let id := PropertyID.TemperatureSetpoint in
  let bad := {| TemperatureSetpoint.value := F32.lit true 12340 (-1) |} in
  let out := repeat "000"%char 64 in
  TemperatureSetpoint.value (PropertyTraits.default_v TemperatureSetpoint.t)
    = F32.lit false 230 (-1) /\
  exists st1 out1 st2 out2,
    setFromText id (Some "37.5"%string) PropertyStore_init
      = Returns (true, st1) /\
    getAsText id out 64 st1 = Returns (5, out1) /\
    c_str out1 = "37.50"%string /\
    set id bad st1 = Returns (false, st2) /\
    getAsText id out 64 st2 = Returns (5, out2) /\
    c_str out2 = "37.50"%string.
Proof.
  intros id bad out.
  apply (setpoint_scenario PropertyStore_init out 64).
  - exact well_sized_init.
  - repeat constructor.
  - repeat constructor.
Defined.

(** ** [strtol] on decimal numerals *)

Lemma numeral_acc_pos (d : Decimal.uint) (p : positive) :
  numeral_acc d (Zpos p) = Zpos (Pos.of_uint_acc d p).
Proof.
  revert p. induction d; intros p; cbn [numeral_acc Pos.of_uint_acc];
    try reflexivity; rewrite <- IHd; f_equal; lia.
Qed.

Lemma numeral_acc_0 (d : Decimal.uint) : numeral_acc d 0 = Z.of_uint d.
Proof.
  unfold Z.of_uint.
  induction d; cbn [numeral_acc Pos.of_uint]; try reflexivity;
    try exact IHd; apply numeral_acc_pos.
Qed.

Lemma scan_digits_numeral (d : Decimal.uint) (acc : Z) :
  scan_digits digit 10 (NilEmpty.string_of_uint d) acc
  = (numeral_acc d acc, String.length (NilEmpty.string_of_uint d),
     EmptyString).
Proof.
  revert acc. induction d; intros acc;
    cbn [NilEmpty.string_of_uint scan_digits numeral_acc String.length];
    try reflexivity;
    (match goal with
     | |- context [digit ?c] =>
         change (digit c) with (Some (code c - 48)); cbv beta iota
     end; rewrite IHd; reflexivity).
Qed.

Lemma strtol_unsigned (u : Decimal.uint) :
  strtol (NilZero.string_of_uint u)
  = (clamp_long (Z.of_uint u), String.length (NilZero.string_of_uint u)).
Proof.
  rewrite <- numeral_acc_0.
  destruct u; try reflexivity;
    unfold NilZero.string_of_uint, strtol;
    cbn [NilEmpty.string_of_uint skip_spaces numeral_acc];
    (match goal with
     | |- context [isspace ?c] =>
         change (isspace c) with false; cbv beta iota;
         cbn [scan_sign scan_digits];
         change (digit c) with (Some (code c - 48)); cbv beta iota
     end);
    rewrite scan_digits_numeral; reflexivity.
Qed.

Lemma strtol_negative (u : Decimal.uint) :
  strtol (String "-" (NilZero.string_of_uint u))
  = (clamp_long (- Z.of_uint u),
     S (String.length (NilZero.string_of_uint u))).
Proof.
  rewrite <- numeral_acc_0.
  destruct u; try reflexivity;
    unfold NilZero.string_of_uint, strtol;
    cbn [NilEmpty.string_of_uint skip_spaces numeral_acc];
    change (isspace "-") with false; cbv beta iota;
    cbn [scan_sign scan_digits];
    (match goal with
     | |- context [digit ?c] =>
         change (digit c) with (Some (code c - 48)); cbv beta iota
     end);
    rewrite scan_digits_numeral; reflexivity.
Qed.

(** On a decimal numeral, [strtol] reads the whole text and returns the
    number it denotes, clamped to [long]. *)
Lemma strtol_numeral (s : string) (d : Decimal.int) :
  NilZero.int_of_string s = Some d ->
  strtol s
  = (clamp_long (Z.of_int d), String.length s).
Proof.
  intros H. apply NilZero.sis in H. subst s.
  destruct d as [u|u]; cbn [NilZero.string_of_int Z.of_int].
  - apply strtol_unsigned.
  - apply strtol_negative.
Qed.

(** A decimal numeral parses as a voltage; the scalar stored is the
    number the numeral denotes exactly when that number fits [int16_t]. *)
Lemma DeviceVoltage_parse_numeral (s : string) (d : Decimal.int)
    (out : DeviceVoltage.t) :
  NilZero.int_of_string s = Some d ->
  exists x,
    PropertyTraits.parse (Some s) out = (true, x) /\
    (word.signed (DeviceVoltage.value x) = Z.of_int d <->
     - 2 ^ 15 <= Z.of_int d < 2 ^ 15).
Proof.
  intros H. pose proof (strtol_numeral s d H) as E.
  destruct s as [|c s]; [discriminate|].
  cbn [PropertyTraits.parse DeviceVoltage_traits]. rewrite E.
  cbn [String.length]. eexists. split; [reflexivity|].
  cbn [DeviceVoltage.value]. split.
  - intros <-. apply (word.signed_range (word := Naive.word16)).
  - intros B. rewrite word.signed_of_Z. unfold word.swrap.
    unfold clamp_long, LONG_MIN, LONG_MAX.
    rewrite Z.mod_small; lia.
Qed.

(** Text round trip of a voltage: parsing the decimal text of a stored
    value gives the value back. *)
Lemma DeviceVoltage_text_round_trip (x out : DeviceVoltage.t) :
  PropertyTraits.parse
    (Some (format_d (word.signed (DeviceVoltage.value x)))) out
  = (true, x).
Proof.
  destruct x as [v]. cbn [DeviceVoltage.value].
  pose proof (word.signed_range v) as B.
  assert (H : NilZero.int_of_string (format_d (word.signed v))
              = Some (Z.to_int (word.signed v))).
  { unfold format_d, decimal.
    apply NilZero.isi; intros E;
      destruct (word.signed v) as [|p|p]; unfold Z.to_int in E;
      try discriminate; inversion E as [E'];
      apply (DecimalPos.Unsigned.to_uint_nonnil p E'). }
  pose proof (strtol_numeral _ _ H) as E.
  rewrite DecimalZ.of_to in E.
  cbn [PropertyTraits.parse DeviceVoltage_traits]. rewrite E.
  destruct (format_d (word.signed v)) as [|c s]; [discriminate|].
  cbn [String.length]. f_equal. f_equal.
  unfold clamp_long, LONG_MIN, LONG_MAX.
  rewrite Z.max_r, Z.min_r by lia.
  apply word.of_Z_signed.
Qed.

(** The decimal text of a number is canonical: it is the text of a
    decimal numeral without leading zeros that denotes the number. *)
Lemma decimal_is_canonical (z : Z) :
  exists d : Decimal.int,
    decimal z = NilZero.string_of_int d /\
    Decimal.norm d = d /\
    Z.of_int d = z.
Proof.
  exists (Z.to_int z). split; [reflexivity|]. split.
  - rewrite <- DecimalZ.to_of. now rewrite DecimalZ.of_to.
  - apply DecimalZ.of_to.
Qed.

(** The part of the integral codec that holds: a token whose number fits
    [int16_t] is stored as that number, and [serialize] writes the
    canonical decimal text of whatever is stored. *)
Lemma DeviceVoltage_parse_fits (s : string) (out : DeviceVoltage.t)
    (v : Z) (k : nat) :
  strtol s = (v, S k) ->
  - 2 ^ 15 <= v < 2 ^ 15 ->
  exists x,
    PropertyTraits.parse (Some s) out = (true, x) /\
    word.signed (DeviceVoltage.value x) = v.
Proof.
  intros E B. cbn [PropertyTraits.parse DeviceVoltage_traits]. rewrite E.
  eexists. split; [reflexivity|]. cbn [DeviceVoltage.value].
  rewrite word.signed_of_Z. unfold word.swrap. rewrite Z.mod_small; lia.
Qed.

Lemma DeviceVoltage_serialize_decimal (x : DeviceVoltage.t)
    (out : list ascii) (n : nat) :
  PropertyTraits.serialize x out n
  = snprintf out n (decimal (word.signed (DeviceVoltage.value x))).
Proof. reflexivity. Qed.

(** C8. The integral codec on the token 70000: [strtol] reads the number
    70000, the cast to [int16_t] keeps 70000 - 65536 = 4464, and
    [validate] accepts it, so [setFromText] commits a value that the text
    does not denote and [getAsText] renders it as 4464. *)
Theorem voltage_token_wraps :
  strtol "70000" = (70000, 5%nat) /\
  (forall out : DeviceVoltage.t,
     PropertyTraits.parse (Some "70000"%string) out
     = (true, {| DeviceVoltage.value := word.of_Z 4464 |})) /\
  word.signed (word.of_Z 70000 : int16_t) = 4464 /\
  exists st out,
    setFromText PropertyID.DeviceVoltage (Some "70000"%string)
      PropertyStore_init = Returns (true, st) /\
    getAsText PropertyID.DeviceVoltage (repeat "000"%char 64) 64 st
      = Returns (4, out) /\
    c_str out = "4464"%string.
Proof.
  split; [vm_compute; reflexivity|].
  split; [intros out; vm_compute; reflexivity|].
  split; [vm_compute; reflexivity|].
  eexists. eexists. split; [vm_compute; reflexivity|].
  split; vm_compute; reflexivity.
Qed.

(* ===================================================================== *)
(** * Parsing and validation *)
(* ===================================================================== *)

Lemma numeric_prefix_float_Some (s : string) :
  numeric_prefix_float (Some s) <-> snd (strtof s) <> O.
Proof.
  unfold numeric_prefix_float. split.
  - intros (s' & E & N). now inversion E; subst.
  - intros N. now exists s.
Qed.

Lemma numeric_prefix_int_Some (s : string) :
  numeric_prefix_int (Some s) <-> snd (strtol s) <> O.
Proof.
  unfold numeric_prefix_int. split.
  - intros (s' & E & N). now inversion E; subst.
  - intros N. now exists s.
Qed.

Lemma numeric_prefix_float_None : ~ numeric_prefix_float None.
Proof. intros (s & E & _). discriminate. Qed.

Lemma numeric_prefix_int_None : ~ numeric_prefix_int None.
Proof. intros (s & E & _). discriminate. Qed.

(** Settles [parse = true <-> prefix] once the text is known to be there
    and the scanner's result is named. *)
Ltac by_consumed :=
  cbn [fst snd]; split;
  [ try discriminate; intros _; try discriminate; auto
  | try reflexivity; intros N; try (exfalso; now apply N); auto ].

(** [PropertyTraits::parse] succeeds exactly on a numeric prefix. *)
Lemma PropertyTraits_parse_setpoint (text : cstring)
    (out : TemperatureSetpoint.t) :
  fst (PropertyTraits.parse text out) = true <-> numeric_prefix_float text.
Proof.
  destruct text as [s|]; cbn [PropertyTraits.parse TemperatureSetpoint_traits].
  - rewrite numeric_prefix_float_Some.
    destruct (strtof s) as [v [|k]]; by_consumed.
  - split; [discriminate|]. intros H. elim (numeric_prefix_float_None H).
Qed.

Lemma PropertyTraits_parse_voltage (text : cstring) (out : DeviceVoltage.t) :
  fst (PropertyTraits.parse text out) = true <-> numeric_prefix_int text.
Proof.
  destruct text as [s|]; cbn [PropertyTraits.parse DeviceVoltage_traits].
  - rewrite numeric_prefix_int_Some.
    destruct (strtol s) as [v [|k]]; by_consumed.
  - split; [discriminate|]. intros H. elim (numeric_prefix_int_None H).
Qed.

(** [ParameterTraits::parse] succeeds exactly on a numeric prefix whose
    value [validate] accepts. *)
Lemma ParameterTraits_parse_setpoint (text : cstring)
    (out : ParametersMin.TemperatureSetpoint.t) :
  let r := ParametersMin.ParameterTraits.parse text out in
  fst r = true <->
  numeric_prefix_float text /\
  ParametersMin.ParameterTraits.validate (snd r) = true.
Proof.
  destruct text as [s|];
    cbn [ParametersMin.ParameterTraits.parse
         ParametersMin.ParameterTraits.validate
         ParametersMin.TemperatureSetpoint_traits].
  - rewrite numeric_prefix_float_Some.
    destruct (strtof s) as [v [|k]]; cbn [fst snd]; split.
    + discriminate.
    + intros [N _]. now elim N.
    + intros E. split; [discriminate|exact E].
    + intros [_ E]. exact E.
  - cbn. split; [discriminate|].
    intros [H _]. elim (numeric_prefix_float_None H).
Qed.

Lemma ParameterTraits_parse_alarm (text : cstring)
    (out : ParametersMin.HighTemperatureAlarm.t) :
  let r := ParametersMin.ParameterTraits.parse text out in
  fst r = true <->
  numeric_prefix_float text /\
  ParametersMin.ParameterTraits.validate (snd r) = true.
Proof.
  destruct text as [s|];
    cbn [ParametersMin.ParameterTraits.parse
         ParametersMin.ParameterTraits.validate
         ParametersMin.HighTemperatureAlarm_traits].
  - rewrite numeric_prefix_float_Some.
    destruct (strtof s) as [v [|k]]; cbn [fst snd]; split.
    + discriminate.
    + intros [N _]. now elim N.
    + intros E. split; [discriminate|exact E].
    + intros [_ E]. exact E.
  - cbn. split; [discriminate|].
    intros [H _]. elim (numeric_prefix_float_None H).
Qed.

(** C3 as stated does not hold of every descriptor: the text 200 has a
    numeric prefix, and [ParameterTraits<TemperatureSetpoint>::parse]
    rejects it, because the number is outside the domain. *)
Lemma parameter_parse_checks_domain :
  ~ (forall (text : cstring) (out : ParametersMin.TemperatureSetpoint.t),
       numeric_prefix_float text ->
       fst (ParametersMin.ParameterTraits.parse text out) = true).
Proof.
  intros H.
  specialize (H (Some "200"%string)
                (ParametersMin.ParameterTraits.default_v
                   ParametersMin.TemperatureSetpoint.t)).
  assert (P : numeric_prefix_float (Some "200"%string)).
  { apply numeric_prefix_float_Some. vm_compute. discriminate. }
  specialize (H P). vm_compute in H. discriminate.
Qed.

(** C3, amended. For the [PropertyTraits] descriptors, [parse] succeeds
    exactly when the text has a numeric prefix, whatever the value, and
    some text parses to a value that [validate] rejects; the store commits
    a text only after [parse] and then [validate] have both passed. For
    the [ParameterTraits] descriptors, [parse] runs [validate] itself:
    it succeeds exactly when the text has a numeric prefix and the value
    is in the domain, so there a successful parse implies validity. *)
Theorem parse_and_validate :
  (forall text (out : TemperatureSetpoint.t),
     fst (PropertyTraits.parse text out) = true <->
     numeric_prefix_float text) /\
  (forall text (out : DeviceVoltage.t),
     fst (PropertyTraits.parse text out) = true <->
     numeric_prefix_int text) /\
  (exists text, forall out : TemperatureSetpoint.t,
     let r := PropertyTraits.parse text out in
     fst r = true /\ PropertyTraits.validate (snd r) = false) /\
  (exists text, forall out : DeviceVoltage.t,
     let r := PropertyTraits.parse text out in
     fst r = true /\ PropertyTraits.validate (snd r) = false) /\
  (forall id text st st',
     setFromText id text st = Returns (true, st') ->
     exists h parse tmp,
       handler id = Returns h /\
       PropertyHandler.parse h = Some parse /\
       parse text (repeat Byte.x00 kMaxPropertySize) = Returns (true, tmp) /\
       PropertyHandler.validate h tmp = Returns true) /\
  (forall text (out : ParametersMin.TemperatureSetpoint.t),
     let r := ParametersMin.ParameterTraits.parse text out in
     fst r = true <->
     numeric_prefix_float text /\
     ParametersMin.ParameterTraits.validate (snd r) = true) /\
  (forall text (out : ParametersMin.HighTemperatureAlarm.t),
     let r := ParametersMin.ParameterTraits.parse text out in
     fst r = true <->
     numeric_prefix_float text /\
     ParametersMin.ParameterTraits.validate (snd r) = true).
Proof.
  split; [exact PropertyTraits_parse_setpoint|].
  split; [exact PropertyTraits_parse_voltage|].
  split; [exists (Some "200"%string); intros out; vm_compute; auto|].
  split; [exists (Some "20000"%string); intros out; vm_compute; auto|].
  split.
  - intros id text st st' H. apply setFromText_inv in H.
    destruct H as [[E _]|[_ (h & p & tmp & s & buf' & Hh & Hp & Ht & Hv & _)]];
      [discriminate|].
    exists h, p, tmp. auto.
  - split; [exact ParameterTraits_parse_setpoint
           |exact ParameterTraits_parse_alarm].
Qed.

Lemma parse_and_validate_witness :
  let text := Some "37.5"%string in
  let id := PropertyID.TemperatureSetpoint in
  (exists st', setFromText id text PropertyStore_init = Returns (true, st')) /\
  exists h parse tmp,
    handler id = Returns h /\
    PropertyHandler.parse h = Some parse /\
    parse text (repeat Byte.x00 kMaxPropertySize) = Returns (true, tmp) /\
    PropertyHandler.validate h tmp = Returns true.
Proof.
  intros text id.
  destruct (setFromText_37_5 PropertyStore_init well_sized_init)
    as (s & _ & H).
  split; [eexists; exact H|].
  exact (proj1 (proj2 (proj2 (proj2 (proj2 parse_and_validate))))
           id text PropertyStore_init _ H).
Defined.

(* ===================================================================== *)
(** * Further properties of the store *)
(* ===================================================================== *)

Lemma memcpy_Returns (dst src out : list byte) (n : nat) :
  memcpy dst src n = Returns out ->
  (n <= length src)%nat /\ (n <= length dst)%nat /\
  out = firstn n src ++ skipn n dst.
Proof.
  unfold memcpy. destruct (Nat.leb_spec n (length src)) as [Ls|]; [|discriminate].
  unfold blit. rewrite length_firstn, Nat.min_l by exact Ls.
  destruct (Nat.leb_spec n (length dst)) as [Ld|]; [|discriminate].
  intros E. inversion E. auto.
Qed.

(** The two entries of the table. *)
Lemma handler_cases (id : PropertyID) (h : PropertyHandler.t) :
  handler id = Returns h ->
  (id = PropertyID.TemperatureSetpoint /\ h = makeHandler TemperatureSetpoint.t)
  \/ (id = PropertyID.DeviceVoltage /\ h = makeHandler DeviceVoltage.t).
Proof.
  intros H. destruct (handler_in_table _ _ H) as [_ Hr].
  apply in_range_cases in Hr. destruct Hr as [-> | ->];
    inversion H; auto.
Qed.

Lemma table_cases (i : nat) (h : PropertyHandler.t) :
  nth_error kPropertyTable i = Some h ->
  (i = 0%nat /\ h = makeHandler TemperatureSetpoint.t)
  \/ (i = 1%nat /\ h = makeHandler DeviceVoltage.t).
Proof.
  destruct i as [|[|[|i]]]; simpl; intros E; inversion E; auto.
Qed.

Lemma load_prefix (T : Type) {R : ObjectRepr T} (a b : list byte) :
  (sizeof T <= length a)%nat -> (sizeof T <= length b)%nat ->
  firstn (sizeof T) a = firstn (sizeof T) b ->
  load T a = load T b.
Proof.
  intros La Lb E. unfold load.
  apply Nat.leb_le in La, Lb. now rewrite La, Lb, E.
Qed.

(** A handler of the table looks only at the first [size] bytes. *)
Lemma validate_prefix (i : nat) (h : PropertyHandler.t) (a b : list byte) :
  nth_error kPropertyTable i = Some h ->
  (PropertyHandler.size h <= length a)%nat ->
  (PropertyHandler.size h <= length b)%nat ->
  firstn (PropertyHandler.size h) a = firstn (PropertyHandler.size h) b ->
  PropertyHandler.validate h a = PropertyHandler.validate h b.
Proof.
  intros Hh La Lb E.
  destruct (table_cases _ _ Hh) as [[_ ->]|[_ ->]];
    cbn [makeHandler PropertyHandler.validate PropertyHandler.size] in *;
    now rewrite (load_prefix _ a b La Lb E).
Qed.

Lemma firstn_firstn_app {A : Type} (n : nat) (a b : list A) :
  (n <= length a)%nat -> firstn n (firstn n a ++ b) = firstn n a.
Proof.
  intros L. apply firstn_exact. rewrite length_firstn. lia.
Qed.

Lemma skipn_firstn_app {A : Type} (n : nat) (a b : list A) :
  (n <= length a)%nat -> skipn n (firstn n a ++ b) = b.
Proof.
  intros L. rewrite skipn_app, length_firstn, Nat.min_l by exact L.
  rewrite Nat.sub_diag. rewrite skipn_whole by (rewrite length_firstn; lia).
  reflexivity.
Qed.

(** What a set operation that returns true has done, whichever it is:
    the first [size] bytes of a scratch buffer that [validate] accepted
    are in the target slot. *)
Lemma apply_commit (op : setter) (id : PropertyID) (st st' : PropertyStore) :
  apply op id st = Returns (true, st') ->
  exists h s tmp,
    handler id = Returns h /\
    index (slots st) (static_cast_size_t id) = Returns s /\
    scratch_of h op tmp /\
    PropertyHandler.validate h tmp = Returns true /\
    (PropertyHandler.size h <= length tmp)%nat /\
    (PropertyHandler.size h <= length (Slot.buf s))%nat /\
    st' = {| slots := assign (slots st) (static_cast_size_t id)
               {| Slot.buf := firstn (PropertyHandler.size h) tmp
                              ++ skipn (PropertyHandler.size h) (Slot.buf s);
                  Slot.sz := PropertyHandler.size h;
                  Slot.has_value := true |} |}.
Proof.
  intros H.
  assert (R : forall data sz,
             setRaw id data sz st = Returns (true, st') ->
             exists h s tmp,
               handler id = Returns h /\
               index (slots st) (static_cast_size_t id) = Returns s /\
               memcpy (repeat Byte.x00 kMaxPropertySize) data sz = Returns tmp /\
               sz = PropertyHandler.size h /\
               PropertyHandler.validate h tmp = Returns true /\
               (PropertyHandler.size h <= length tmp)%nat /\
               (PropertyHandler.size h <= length (Slot.buf s))%nat /\
               st' = {| slots := assign (slots st) (static_cast_size_t id)
                  {| Slot.buf := firstn (PropertyHandler.size h) tmp
                       ++ skipn (PropertyHandler.size h) (Slot.buf s);
                     Slot.sz := PropertyHandler.size h;
                     Slot.has_value := true |} |}).
  { intros data sz E. apply setRaw_inv in E.
    destruct E as [[E _]|[_ (h & tmp & s & buf' & Hh & -> & Ht & Hv & Hs & Hm & ->)]];
      [discriminate|].
    exists h, s, tmp.
    pose proof (memcpy_length _ _ _ _ Ht) as Lt.
    apply memcpy_Returns in Ht. destruct Ht as (Ld & Lz & ->).
    apply memcpy_Returns in Hm. destruct Hm as (_ & Lb & ->).
    rewrite firstn_firstn_app by exact Ld.
    repeat split; auto.
    - now apply memcpy_fits.
    - rewrite Lt. exact Lz. }
  destruct op as [data sz|T R' v|text]; cbn [apply] in H.
  - destruct (R _ _ H) as (h & s & tmp & Hh & Hs & Ht & _ & Hv & L1 & L2 & E).
    exists h, s, tmp. repeat split; auto. now constructor.
  - destruct (R _ _ H) as (h & s & tmp & Hh & Hs & Ht & _ & Hv & L1 & L2 & E).
    exists h, s, tmp. repeat split; auto. now constructor.
  - apply setFromText_inv in H.
    destruct H as [[E _]|[_ (h & p & tmp & s & buf' & Hh & Hp & Ht & Hv & Hs & Hm & ->)]];
      [discriminate|].
    apply memcpy_Returns in Hm. destruct Hm as (L1 & L2 & ->).
    exists h, s, tmp. repeat split; auto. econstructor; eassumption.
Qed.

Lemma store_valid_init : store_valid PropertyStore_init.
Proof.
  split; [reflexivity|]. intros i h s _ Hs.
  apply nth_error_In in Hs. cbn [slots PropertyStore_init] in Hs.
  apply repeat_spec in Hs. subst s. split; [reflexivity|discriminate].
Qed.

Lemma apply_store_valid (op : setter) (id : PropertyID)
    (st st' : PropertyStore) (ok : bool) :
  apply op id st = Returns (ok, st') -> store_valid st -> store_valid st'.
Proof.
  intros H V. destruct ok.
  2:{ apply apply_inv in H. destruct H as [[_ ->]|[E _]];
        [exact V|discriminate]. }
  apply apply_commit in H.
  destruct H as (h & s & tmp & Hh & Hs & _ & Hv & L1 & L2 & ->).
  destruct V as [Hl Hsl]. split; cbn [slots].
  - now rewrite length_assign.
  - intros i h' s' Hh' Hs'.
    destruct (Nat.eq_dec i (static_cast_size_t id)) as [->|N].
    + apply index_Returns in Hh, Hs. unfold handler in Hh.
      rewrite nth_error_assign_same in Hs'
        by (apply nth_error_Some; congruence).
      inversion Hs'; subst s'. clear Hs'.
      assert (h' = h) by congruence. subst h'.
      destruct (Hsl _ _ _ Hh Hs) as [Lb _].
      split; cbn [Slot.buf Slot.sz Slot.has_value].
      * rewrite length_app, length_firstn, length_skipn. lia.
      * intros _. split; [reflexivity|]. rewrite <- Hv.
        apply (validate_prefix _ _ _ _ Hh);
          rewrite ?length_app, ?length_firstn, ?length_skipn; try lia.
        now rewrite firstn_firstn_app.
    + rewrite nth_error_assign_other in Hs' by exact N.
      eapply Hsl; eassumption.
Qed.

Lemma reachable_valid (st : PropertyStore) :
  reachable st -> store_valid st.
Proof.
  induction 1 as [|st st' op id ok _ IH H].
  - exact store_valid_init.
  - eapply apply_store_valid; eassumption.
Qed.

(** X1. The store never holds an invalid value. In every store that set
    operations lead to from a fresh one, there is one slot per table
    entry, and for every identifier in range the slot's buffer has the
    slot capacity and, if the slot holds a value, it records the size of
    the identifier's handler and holds bytes that the handler's
    [validate] accepts. *)
Theorem reachable_store_is_valid (st : PropertyStore) :
  reachable st ->
  length (slots st) = kPropertyCount /\
  forall id h,
    handler id = Returns h ->
    exists s,
      index (slots st) (static_cast_size_t id) = Returns s /\
      length (Slot.buf s) = kMaxPropertySize /\
      (Slot.has_value s = true ->
       Slot.sz s = PropertyHandler.size h /\
       PropertyHandler.validate h (Slot.buf s) = Returns true).
Proof.
  intros H. apply reachable_valid in H. destruct H as [Hl Hs].
  split; [exact Hl|]. intros id h Hh.
  destruct (handler_in_table _ _ Hh) as [_ Hr].
  destruct (index_in_range (slots st) (static_cast_size_t id)) as [s E];
    [unfold in_range in Hr; lia|].
  exists s. split; [exact E|].
  apply index_Returns in E, Hh. exact (Hs _ _ _ Hh E).
Qed.

Lemma reachable_voltage_only : reachable voltage_only.
Proof.
  apply (reach_step PropertyStore_init voltage_only
           (SetFromText (Some "1015"%string)) PropertyID.DeviceVoltage true).
  - apply reach_fresh.
  - vm_compute. reflexivity.
Qed.

Lemma reachable_store_is_valid_witness :
  reachable voltage_only /\
  exists s,
    index (slots voltage_only) (static_cast_size_t PropertyID.DeviceVoltage)
      = Returns s /\
    length (Slot.buf s) = kMaxPropertySize /\
    (Slot.has_value s = true ->
     Slot.sz s = 2%nat /\
     PropertyHandler.validate (makeHandler DeviceVoltage.t) (Slot.buf s)
     = Returns true).
Proof.
  split; [exact reachable_voltage_only|].
  exact (proj2 (reachable_store_is_valid voltage_only reachable_voltage_only)
           PropertyID.DeviceVoltage (makeHandler DeviceVoltage.t) eq_refl).
Defined.

(** ** No undefined behaviour in range *)

Lemma in_range_handler (id : PropertyID) :
  in_range id -> exists h, handler id = Returns h.
Proof. intros Hr. apply index_in_range. exact Hr. Qed.

Lemma store_valid_slot (id : PropertyID) (st : PropertyStore)
    (h : PropertyHandler.t) :
  store_valid st -> handler id = Returns h ->
  exists s,
    index (slots st) (static_cast_size_t id) = Returns s /\
    slot_valid h s.
Proof.
  intros [Hl Hs] Hh. destruct (handler_in_table _ _ Hh) as [_ Hr].
  destruct (index_in_range (slots st) (static_cast_size_t id)) as [s E];
    [unfold in_range in Hr; lia|].
  exists s. split; [exact E|].
  apply index_Returns in E, Hh. eapply Hs; eassumption.
Qed.

Lemma validate_defined (T : Type) {Tr : PropertyTraits.t T}
    {R : ObjectRepr T} (a : list byte) :
  (sizeof T <= length a)%nat ->
  PropertyHandler.validate (makeHandler T) a
  = Returns (PropertyTraits.validate (of_bytes (firstn (sizeof T) a))).
Proof.
  intros L. cbn [makeHandler PropertyHandler.validate]. unfold load.
  apply Nat.leb_le in L. now rewrite L.
Qed.

Lemma table_validate_defined (id : PropertyID) (h : PropertyHandler.t)
    (a : list byte) :
  handler id = Returns h -> length a = kMaxPropertySize ->
  exists b, PropertyHandler.validate h a = Returns b.
Proof.
  intros Hh La.
  destruct (handler_cases _ _ Hh) as [[_ ->]|[_ ->]];
    rewrite validate_defined by (rewrite La; vm_compute; lia); eauto.
Qed.

(** The parse adapter of [makeHandler] on storage large enough. *)
Lemma parse_adapter (T : Type) {Tr : PropertyTraits.t T} {R : ObjectRepr T}
    {Rok : ObjectReprOk T} (text : cstring) (out : list byte) :
  (sizeof T <= length out)%nat ->
  exists parse,
    PropertyHandler.parse (makeHandler T) = Some parse /\
    parse text out =
    Returns (fst (PropertyTraits.parse text
                    (of_bytes (firstn (sizeof T) out))),
             to_bytes (snd (PropertyTraits.parse text
                              (of_bytes (firstn (sizeof T) out))))
             ++ skipn (sizeof T) out).
Proof.
  intros L. eexists. split; [reflexivity|]. cbv beta. unfold load, store.
  apply Nat.leb_le in L as L'. rewrite L'. cbn [bind].
  destruct (PropertyTraits.parse text (of_bytes (firstn (sizeof T) out)))
    as [ok x]. cbn [fst snd].
  rewrite blit_fits by (rewrite length_to_bytes; exact L).
  cbn [bind]. now rewrite length_to_bytes.
Qed.

Lemma snprintf_defined (out : list ascii) (n : nat) (text : string) :
  (n <= length out)%nat ->
  snprintf out n text =
  Returns (Z.of_nat (String.length text),
           match n with
           | O => out
           | S k =>
               firstn k (list_ascii_of_string text) ++ [zero]
               ++ skipn (S (Nat.min k (String.length text))) out
           end).
Proof.
  intros L. unfold snprintf.
  assert (Lc : length (list_ascii_of_string text) = String.length text).
  { clear. induction text; simpl; auto. }
  rewrite Lc. destruct n as [|k]; [reflexivity|].
  rewrite blit_fits
    by (rewrite length_app, length_firstn, Lc; cbn [length]; lia).
  cbn [bind]. rewrite length_app, length_firstn, Lc. cbn [length].
  rewrite Nat.add_1_r, <- List.app_assoc. reflexivity.
Qed.

(** [getAsText] on a slot that holds a value, by identifier. *)
Lemma getAsText_voltage (st : PropertyStore) (s : Slot.t)
    (out : list ascii) (n : nat) (x : DeviceVoltage.t) :
  index (slots st) (static_cast_size_t PropertyID.DeviceVoltage)
    = Returns s ->
  Slot.has_value s = true ->
  load DeviceVoltage.t (Slot.buf s) = Returns x ->
  getAsText PropertyID.DeviceVoltage out n st
  = snprintf out n (format_d (word.signed (DeviceVoltage.value x))).
Proof.
  intros Hs Hv Hx. unfold getAsText.
  change (handler PropertyID.DeviceVoltage)
    with (Returns (makeHandler DeviceVoltage.t)).
  cbn [bind]. rewrite Hs.
  cbn [bind makeHandler PropertyHandler.serialize]. rewrite Hv. cbn [negb].
  rewrite Hx. reflexivity.
Qed.

Lemma load_defined (T : Type) {R : ObjectRepr T} (a : list byte) :
  (sizeof T <= length a)%nat ->
  load T a = Returns (of_bytes (firstn (sizeof T) a)).
Proof. intros L. unfold load. apply Nat.leb_le in L. now rewrite L. Qed.

Lemma getAsText_present (id : PropertyID) (st : PropertyStore) (s : Slot.t)
    (out : list ascii) (n : nat) :
  in_range id ->
  index (slots st) (static_cast_size_t id) = Returns s ->
  length (Slot.buf s) = kMaxPropertySize ->
  Slot.has_value s = true ->
  getAsText id out n st = snprintf out n (rendering id (Slot.buf s)).
Proof.
  intros Hr Hs Lb Hv. apply in_range_cases in Hr. destruct Hr as [-> | ->].
  - rewrite (getAsText_setpoint st s out n
               (of_bytes (firstn (sizeof TemperatureSetpoint.t) (Slot.buf s)))
               Hs Hv); [reflexivity|].
    apply load_defined. rewrite Lb. vm_compute. lia.
  - rewrite (getAsText_voltage st s out n
               (of_bytes (firstn (sizeof DeviceVoltage.t) (Slot.buf s)))
               Hs Hv); [reflexivity|].
    apply load_defined. rewrite Lb. vm_compute. lia.
Qed.

Lemma getAsText_absent (id : PropertyID) (st : PropertyStore) (s : Slot.t)
    (out : list ascii) (n : nat) :
  in_range id ->
  index (slots st) (static_cast_size_t id) = Returns s ->
  Slot.has_value s = false ->
  getAsText id out n st = Returns (-1, out).
Proof.
  intros Hr Hs Hv. destruct (in_range_handler id Hr) as [h Hh].
  unfold getAsText. rewrite Hh, Hs. cbn [bind]. rewrite Hv.
  now destruct (PropertyHandler.serialize h).
Qed.

(** X2. No undefined behaviour in range. On a store that set operations
    lead to, every operation on an identifier in range returns, provided
    the caller's buffers are as large as the sizes passed with them:
    [setRaw] may read [sz] bytes, [getRaw] may write [sz] bytes,
    [getAsText] may write [n] characters. *)
Theorem operations_in_range_return (id : PropertyID) (st : PropertyStore) :
  in_range id -> reachable st ->
  (forall text, exists r, setFromText id text st = Returns r) /\
  (forall data sz, (sz <= length data)%nat ->
     exists r, setRaw id data sz st = Returns r) /\
  (forall (T : Type) (R : ObjectRepr T) (Rok : ObjectReprOk T) (v : T),
     exists r, set id v st = Returns r) /\
  (forall out sz, (sz <= length out)%nat ->
     exists r, getRaw id out sz st = Returns r) /\
  (forall (T : Type) (R : ObjectRepr T) (Rok : ObjectReprOk T) (out : T),
     exists r, get id out st = Returns r) /\
  (forall out n, (n <= length out)%nat ->
     exists r, getAsText id out n st = Returns r).
Proof.
  intros Hr Hreach.
  pose proof (reachable_valid st Hreach) as V.
  destruct (in_range_handler id Hr) as [h Hh].
  destruct (store_valid_slot id st h V Hh) as (s & Hs & Lb & Hsv).
  destruct (handler_in_table _ _ Hh) as [Hin _].
  apply size_le_max in Hin.
  assert (Hraw : forall data sz, (sz <= length data)%nat ->
            exists r, setRaw id data sz st = Returns r).
  { intros data sz Ld. unfold setRaw. rewrite Hh. cbn [bind].
    destruct (Nat.eqb_spec sz (PropertyHandler.size h)) as [->|N];
      cbn [negb]; [|eauto].
    rewrite memcpy_fits by (rewrite ?repeat_length; lia). cbn [bind].
    destruct (table_validate_defined id h
                (firstn (PropertyHandler.size h) data
                 ++ skipn (PropertyHandler.size h)
                      (repeat Byte.x00 kMaxPropertySize)) Hh) as [b Hb].
    { rewrite length_app, length_firstn, length_skipn, repeat_length. lia. }
    rewrite Hb. cbn [bind]. destruct b; cbn [negb]; [|eauto].
    rewrite Hs. cbn [bind]. rewrite memcpy_fits by lia. cbn [bind]. eauto. }
  assert (Hget : forall out sz, (sz <= length out)%nat ->
            exists r, getRaw id out sz st = Returns r).
  { intros out sz Lo. unfold getRaw. rewrite Hs. cbn [bind].
    destruct (Slot.has_value s) eqn:Ev; cbn [negb orb]; [|eauto].
    destruct (Hsv eq_refl) as [Esz _].
    destruct (Nat.eqb_spec (Slot.sz s) sz) as [E|N]; cbn [negb]; [|eauto].
    rewrite memcpy_fits by lia. cbn [bind]. eauto. }
  split; [|split; [exact Hraw|split; [|split; [exact Hget|split]]]].
  - intros text. unfold setFromText. rewrite Hh. cbn [bind].
    destruct (handler_cases _ _ Hh) as [[_ ->]|[_ ->]].
    + destruct (parse_adapter TemperatureSetpoint.t text
                  (repeat Byte.x00 kMaxPropertySize)) as (p & Ep & E);
        [vm_compute; lia|].
      rewrite Ep, E. cbn [bind].
      destruct (fst _); cbn [negb]; [|eauto].
      rewrite validate_defined
        by (rewrite length_app, length_to_bytes; vm_compute; lia).
      cbn [bind]. destruct (PropertyTraits.validate _); cbn [negb]; [|eauto].
      rewrite Hs. cbn [bind].
      rewrite memcpy_fits
        by (rewrite ?length_app, ?length_to_bytes, ?Lb; vm_compute; lia).
      cbn [bind]. eauto.
    + destruct (parse_adapter DeviceVoltage.t text
                  (repeat Byte.x00 kMaxPropertySize)) as (p & Ep & E);
        [vm_compute; lia|].
      rewrite Ep, E. cbn [bind].
      destruct (fst _); cbn [negb]; [|eauto].
      rewrite validate_defined
        by (rewrite length_app, length_to_bytes; vm_compute; lia).
      cbn [bind]. destruct (PropertyTraits.validate _); cbn [negb]; [|eauto].
      rewrite Hs. cbn [bind].
      rewrite memcpy_fits
        by (rewrite ?length_app, ?length_to_bytes, ?Lb; vm_compute; lia).
      cbn [bind]. eauto.
  - intros T R Rok v. unfold set. apply Hraw. rewrite length_to_bytes. lia.
  - intros T R Rok out. unfold get.
    destruct (Hget (to_bytes out) (sizeof T)) as [[ok out'] E];
      [rewrite length_to_bytes; lia|].
    rewrite E. cbn [bind]. eauto.
  - intros out n Lo. destruct (Slot.has_value s) eqn:Ev.
    + rewrite (getAsText_present id st s out n Hr Hs Lb Ev).
      rewrite snprintf_defined by exact Lo. eauto.
    + rewrite (getAsText_absent id st s out n Hr Hs Ev). eauto.
Qed.

Lemma operations_in_range_return_witness :
  in_range PropertyID.TemperatureSetpoint /\
  reachable voltage_only /\
  (forall text, exists r,
     setFromText PropertyID.TemperatureSetpoint text voltage_only
     = Returns r) /\
  (forall out n, (n <= length out)%nat -> exists r,
     getAsText PropertyID.TemperatureSetpoint out n voltage_only
     = Returns r).
Proof.
  assert (Hr : in_range PropertyID.TemperatureSetpoint)
    by (unfold in_range; vm_compute; lia).
  destruct (operations_in_range_return PropertyID.TemperatureSetpoint
              voltage_only Hr reachable_voltage_only)
    as (H1 & _ & _ & _ & _ & H6).
  repeat split; try assumption. exact reachable_voltage_only.
Defined.

(** X3. Out of range, everything is undefined. No operation of the store
    checks its identifier: on an identifier past the end of the table,
    each of the six operations indexes the table or the slot array out of
    bounds. *)
Theorem operations_out_of_range_are_undefined (id : PropertyID)
    (st : PropertyStore) :
  ~ in_range id -> length (slots st) = kPropertyCount ->
  (forall data sz, setRaw id data sz st = Undefined) /\
  (forall (T : Type) (R : ObjectRepr T) (v : T), set id v st = Undefined) /\
  (forall text, setFromText id text st = Undefined) /\
  (forall out sz, getRaw id out sz st = Undefined) /\
  (forall (T : Type) (R : ObjectRepr T) (out : T),
     get id out st = Undefined) /\
  (forall out n, getAsText id out n st = Undefined).
Proof.
  intros Hr Hl. unfold in_range in Hr.
  assert (Hh : handler id = Undefined)
    by (apply index_out_of_range; unfold kPropertyCount in Hr; lia).
  assert (Hs : index (slots st) (static_cast_size_t id) = Undefined)
    by (apply index_out_of_range; lia).
  repeat split; intros;
    unfold set, get, setRaw, getRaw, setFromText, getAsText;
    rewrite ?Hh, ?Hs; reflexivity.
Qed.

Lemma operations_out_of_range_are_undefined_witness :
  ~ in_range 7%N /\
  length (slots PropertyStore_init) = kPropertyCount /\
  (forall text, setFromText 7%N text PropertyStore_init = Undefined) /\
  (forall out sz, getRaw 7%N out sz PropertyStore_init = Undefined).
Proof.
  assert (Hr : ~ in_range 7%N) by (unfold in_range; vm_compute; lia).
  destruct (operations_out_of_range_are_undefined 7%N PropertyStore_init
              Hr eq_refl) as (_ & _ & H3 & H4 & _).
  repeat split; assumption.
Defined.

(** ** Independence of the identifiers *)

Lemma static_cast_size_t_inj (id id' : PropertyID) :
  static_cast_size_t id = static_cast_size_t id' -> id = id'.
Proof. apply N2Nat.inj. Qed.

(** X4. A set operation on one identifier changes nothing that can be
    read through another: whatever it returns, [getRaw], [get] and
    [getAsText] on every other identifier give afterwards what they gave
    before. *)
Theorem set_leaves_other_identifiers (op : setter) (id id' : PropertyID)
    (st st' : PropertyStore) (ok : bool) :
  apply op id st = Returns (ok, st') ->
  id' <> id ->
  (forall out sz, getRaw id' out sz st' = getRaw id' out sz st) /\
  (forall (T : Type) (R : ObjectRepr T) (out : T),
     get id' out st' = get id' out st) /\
  (forall out n, getAsText id' out n st' = getAsText id' out n st).
Proof.
  intros H N.
  assert (E : index (slots st') (static_cast_size_t id')
              = index (slots st) (static_cast_size_t id')).
  { apply apply_inv in H.
    destruct H as [[_ ->]|[_ (s & buf' & sz & _ & _ & ->)]]; [reflexivity|].
    unfold index. cbn [slots]. rewrite nth_error_assign_other; [reflexivity|].
    intros C. apply static_cast_size_t_inj in C. contradiction. }
  repeat split; intros; unfold get, getRaw, getAsText; now rewrite E.
Qed.

Lemma set_leaves_other_identifiers_witness :
  apply (SetFromText (Some "1015"%string)) PropertyID.DeviceVoltage
    PropertyStore_init = Returns (true, voltage_only) /\
  PropertyID.TemperatureSetpoint <> PropertyID.DeviceVoltage /\
  (forall out n,
     getAsText PropertyID.TemperatureSetpoint out n voltage_only
     = getAsText PropertyID.TemperatureSetpoint out n PropertyStore_init).
Proof.
  assert (H : apply (SetFromText (Some "1015"%string))
                PropertyID.DeviceVoltage PropertyStore_init
              = Returns (true, voltage_only)) by (vm_compute; reflexivity).
  assert (N : PropertyID.TemperatureSetpoint <> PropertyID.DeviceVoltage)
    by discriminate.
  destruct (set_leaves_other_identifiers _ _ _ _ _ _ H N) as (_ & _ & H3).
  repeat split; assumption.
Defined.

(** ** How the operations compose *)

Lemma assign_assign {A : Type} (a : list A) (i : nat) (x y : A) :
  assign (assign a i x) i y = assign a i y.
Proof.
  revert i; induction a as [|h t IH]; intros [|j]; simpl; auto.
  now rewrite IH.
Qed.

Lemma index_assign_same {A : Type} (a : list A) (i : nat) (x y : A) :
  index a i = Returns y -> index (assign a i x) i = Returns x.
Proof.
  intros H. apply index_Returns in H. apply index_Returns.
  apply nth_error_assign_same. apply nth_error_Some. congruence.
Qed.

Lemma handler_size_fits (T : Type) {Tr : PropertyTraits.t T}
    {R : ObjectRepr T} (id : PropertyID) :
  handler id = Returns (makeHandler T) ->
  (sizeof T <= kMaxPropertySize)%nat.
Proof.
  intros Hh. destruct (handler_in_table _ _ Hh) as [Hin _].
  now apply size_le_max in Hin.
Qed.

(** [setFromText] unfolded for the type bound to the identifier. *)
Lemma setFromText_unfold (T : Type) {Tr : PropertyTraits.t T}
    {R : ObjectRepr T} {Rok : ObjectReprOk T}
    (id : PropertyID) (text : cstring) (st : PropertyStore) :
  handler id = Returns (makeHandler T) ->
  setFromText id text st =
  let zero_T : T :=
    of_bytes (firstn (sizeof T) (repeat Byte.x00 kMaxPropertySize)) in
  let '(parsed, x) := PropertyTraits.parse text zero_T in
  if parsed then set id x st else Returns (false, st).
Proof.
  intros Hh. pose proof (handler_size_fits T id Hh) as Lk. cbv zeta.
  destruct (parse_adapter T text (repeat Byte.x00 kMaxPropertySize))
    as (p & Ep & E); [rewrite repeat_length; exact Lk|].
  unfold setFromText. rewrite Hh. cbn [bind]. rewrite Ep, E. cbn [bind].
  destruct (PropertyTraits.parse text _) as [parsed x]. cbn [fst snd].
  destruct parsed; cbn [negb]; [|reflexivity].
  unfold set, setRaw. rewrite Hh.
  cbn [bind makeHandler PropertyHandler.size PropertyHandler.validate].
  rewrite Nat.eqb_refl. cbn [negb].
  rewrite (memcpy_to_bytes T x (repeat Byte.x00 kMaxPropertySize))
    by (rewrite repeat_length; exact Lk).
  cbn [bind]. rewrite !(load_to_bytes T x). cbn [bind].
  destruct (PropertyTraits.validate x); cbn [negb]; [|reflexivity].
  destruct (index (slots st) (static_cast_size_t id)) as [s| |];
    cbn [bind]; try reflexivity.
  unfold memcpy. rewrite length_app, !length_to_bytes.
  rewrite Nat.leb_refl.
  replace (sizeof T <=? sizeof T + _)%nat with true
    by (symmetry; apply Nat.leb_le; lia).
  rewrite firstn_exact by apply length_to_bytes.
  rewrite firstn_whole by apply length_to_bytes. reflexivity.
Qed.

(** Reading after a typed set that returned true. *)
Lemma set_read_back (T : Type) {Tr : PropertyTraits.t T}
    {R : ObjectRepr T} {Rok : ObjectReprOk T}
    (id : PropertyID) (v : T) (st st' : PropertyStore) :
  handler id = Returns (makeHandler T) ->
  set id v st = Returns (true, st') ->
  (forall out : T, get id out st' = Returns (true, v)) /\
  (forall out n, getAsText id out n st' = PropertyTraits.serialize v out n).
Proof.
  intros Hh H. unfold set in H. apply setRaw_inv in H.
  destruct H as [[E _]|[_ (h & tmp & s & buf' & _ & _ & _ & _ & Hs & Hm & ->)]];
    [discriminate|].
  apply memcpy_Returns in Hm. destruct Hm as (_ & Lb & ->).
  rewrite firstn_whole by apply length_to_bytes.
  pose proof (index_assign_same (slots st) (static_cast_size_t id)
    {| Slot.buf := to_bytes v ++ skipn (sizeof T) (Slot.buf s);
       Slot.sz := sizeof T; Slot.has_value := true |} s Hs) as Hs'.
  split.
  - intros out. unfold get, getRaw. cbn [slots]. rewrite Hs'.
    cbn [bind Slot.has_value Slot.sz Slot.buf negb orb].
    rewrite Nat.eqb_refl. cbn [negb].
    rewrite memcpy_fits
      by (rewrite ?length_app, ?length_to_bytes; lia).
    cbn [bind]. rewrite firstn_exact by apply length_to_bytes.
    rewrite skipn_whole by apply length_to_bytes.
    rewrite List.app_nil_r. now rewrite of_to_bytes.
  - intros out n. unfold getAsText. rewrite Hh. cbn [bind slots].
    rewrite Hs'.
    cbn [bind makeHandler PropertyHandler.serialize Slot.has_value
         Slot.buf negb].
    now rewrite (load_to_bytes T v).
Qed.

(** X5. The raw path. [setRaw] returns false, whatever the data, when the
    length is not the size of the identifier's entry; and after a
    [setRaw(id, data, sz)] that returned true, [getRaw(id, out, sz)]
    returns true and copies out the first [sz] bytes of the data, while
    [getRaw] with any other length returns false and leaves [out]. *)
Theorem setRaw_then_getRaw (id : PropertyID) (h : PropertyHandler.t)
    (data : list byte) (sz : nat) (st : PropertyStore) :
  handler id = Returns h ->
  (sz <> PropertyHandler.size h -> setRaw id data sz st = Returns (false, st))
  /\
  (forall st', setRaw id data sz st = Returns (true, st') ->
     sz = PropertyHandler.size h /\
     (forall out, (sz <= length out)%nat ->
        getRaw id out sz st'
        = Returns (true, firstn sz data ++ skipn sz out)) /\
     (forall out sz', sz' <> sz ->
        getRaw id out sz' st' = Returns (false, out))).
Proof.
  intros Hh. split.
  - intros N. unfold setRaw. rewrite Hh. cbn [bind].
    apply Nat.eqb_neq in N. now rewrite N.
  - intros st' H. apply setRaw_inv in H.
    destruct H as [[E _]|[_ (h' & tmp & s & buf' & Hh' & Esz & Ht & _ & Hs & Hm & ->)]];
      [discriminate|].
    assert (h' = h) by congruence. subst h'.
    apply memcpy_Returns in Hm. destruct Hm as (Ld & Lb & ->).
    pose proof (index_assign_same (slots st) (static_cast_size_t id)
      {| Slot.buf := firstn sz data ++ skipn sz (Slot.buf s);
         Slot.sz := sz; Slot.has_value := true |} s Hs) as Hs'.
    split; [exact Esz|split].
    + intros out Lo. unfold getRaw. cbn [slots]. rewrite Hs'.
      cbn [bind Slot.has_value Slot.sz Slot.buf negb orb].
      rewrite Nat.eqb_refl. cbn [negb].
      rewrite memcpy_fits
        by (rewrite ?length_app, ?length_firstn, ?length_skipn; lia).
      cbn [bind]. now rewrite firstn_firstn_app.
    + intros out sz' N. unfold getRaw. cbn [slots]. rewrite Hs'.
      cbn [bind Slot.has_value Slot.sz Slot.buf negb orb].
      assert (E : (sz =? sz')%nat = false) by (apply Nat.eqb_neq; congruence).
      now rewrite E.
Qed.

(** X6. Setting is idempotent. A set operation that returned true, done
    again on the store it produced, returns true again and produces the
    same store. *)
Theorem set_twice_is_set_once (op : setter) (id : PropertyID)
    (st st' : PropertyStore) :
  apply op id st = Returns (true, st') ->
  apply op id st' = Returns (true, st').
Proof.
  intros H.
  assert (R : forall data sz,
             setRaw id data sz st = Returns (true, st') ->
             setRaw id data sz st' = Returns (true, st')).
  { intros data sz E. apply setRaw_inv in E.
    destruct E as [[E _]|[_ (h & tmp & s & buf' & Hh & Esz & Ht & Hv & Hs & Hm & ->)]];
      [discriminate|].
    apply memcpy_Returns in Hm. destruct Hm as (Ld & Lb & ->).
    unfold setRaw. rewrite Hh. cbn [bind]. rewrite Esz, Nat.eqb_refl.
    cbn [negb]. rewrite <- Esz, Ht. cbn [bind]. rewrite Hv. cbn [bind negb].
    cbn [slots]. erewrite index_assign_same by exact Hs.
    cbn [bind Slot.buf].
    rewrite memcpy_fits
      by (rewrite ?length_app, ?length_firstn, ?length_skipn; lia).
    cbn [bind]. rewrite skipn_firstn_app by exact Ld.
    now rewrite assign_assign. }
  destruct op as [data sz|T R' v|text]; cbn [apply] in *.
  - now apply R.
  - now apply R.
  - apply setFromText_inv in H.
    destruct H as [[E _]|[_ (h & p & tmp & s & buf' & Hh & Hp & Ht & Hv & Hs & Hm & ->)]];
      [discriminate|].
    apply memcpy_Returns in Hm. destruct Hm as (Ld & Lb & ->).
    unfold setFromText. rewrite Hh. cbn [bind]. rewrite Hp, Ht.
    cbn [bind negb]. rewrite Hv. cbn [bind negb slots].
    erewrite index_assign_same by exact Hs.
    cbn [bind Slot.buf].
    rewrite memcpy_fits
      by (rewrite ?length_app, ?length_firstn, ?length_skipn; lia).
    cbn [bind]. rewrite skipn_firstn_app by exact Ld.
    now rewrite assign_assign.
Qed.

(** X7. Setting from text is parsing followed by a typed set. For the type
    [T] bound to [id], with [parse] run on an all-zero [T]: when [parse]
    returns false, [setFromText] returns false and the store it was given;
    when [parse] returns true with the value [x], [setFromText(id, text)]
    is [set(id, x)], in its result and in the store it leaves. *)
Theorem setFromText_is_parse_then_set (T : Type) {Tr : PropertyTraits.t T}
    {R : ObjectRepr T} {Rok : ObjectReprOk T}
    (id : PropertyID) (text : cstring) (st : PropertyStore) :
  handler id = Returns (makeHandler T) ->
  let zero_T : T :=
    of_bytes (firstn (sizeof T) (repeat Byte.x00 kMaxPropertySize)) in
  (fst (PropertyTraits.parse text zero_T) = false ->
   setFromText id text st = Returns (false, st)) /\
  (forall x, PropertyTraits.parse text zero_T = (true, x) ->
   setFromText id text st = set id x st).
Proof.
  intros Hh zero_T. pose proof (setFromText_unfold T id text st Hh) as E.
  cbv zeta in E. fold zero_T in E. split.
  - intros F. rewrite E.
    destruct (PropertyTraits.parse text zero_T) as [parsed x].
    cbn [fst] in F. now rewrite F.
  - intros x P. rewrite E, P. reflexivity.
Qed.

Lemma setFromText_is_parse_then_set_witness :
  handler PropertyID.DeviceVoltage = Returns (makeHandler DeviceVoltage.t) /\
  setFromText PropertyID.DeviceVoltage (Some "1015"%string) voltage_only =
  set PropertyID.DeviceVoltage {| DeviceVoltage.value := word.of_Z 1015 |}
    voltage_only.
Proof.
  split; [reflexivity|].
  apply (proj2 (setFromText_is_parse_then_set DeviceVoltage.t
                  PropertyID.DeviceVoltage (Some "1015"%string) voltage_only
                  eq_refl)).
  reflexivity.
Defined.

(** X8. What was written can be read back, typed and as text. For the
    type [T] bound to [id]: after a [set(id, v)] that returned true, [get]
    returns true with [v] and [getAsText] is [serialize] of [v] into the
    caller's buffer; after a [setFromText(id, text)] that returned true,
    the same holds of the value that [parse] makes of the text. *)
Theorem write_then_read (T : Type) {Tr : PropertyTraits.t T}
    {R : ObjectRepr T} {Rok : ObjectReprOk T}
    (id : PropertyID) (st st' : PropertyStore) :
  handler id = Returns (makeHandler T) ->
  (forall v : T,
     set id v st = Returns (true, st') ->
     (forall out : T, get id out st' = Returns (true, v)) /\
     (forall out n,
        getAsText id out n st' = PropertyTraits.serialize v out n)) /\
  (forall text,
     setFromText id text st = Returns (true, st') ->
     exists x : T,
       PropertyTraits.parse text
         (of_bytes (firstn (sizeof T) (repeat Byte.x00 kMaxPropertySize)))
       = (true, x) /\
       (forall out : T, get id out st' = Returns (true, x)) /\
       (forall out n,
          getAsText id out n st' = PropertyTraits.serialize x out n)).
Proof.
  intros Hh. split.
  - intros v H. exact (set_read_back T id v st st' Hh H).
  - intros text H. rewrite (setFromText_unfold T id text st Hh) in H.
    cbv zeta in H.
    destruct (PropertyTraits.parse text _) as [parsed x].
    destruct parsed; [|discriminate].
    exists x. split; [reflexivity|].
    exact (set_read_back T id x st st' Hh H).
Qed.

Lemma write_then_read_witness :
  let id := PropertyID.DeviceVoltage in
  handler id = Returns (makeHandler DeviceVoltage.t) /\
  setFromText id (Some "1015"%string) PropertyStore_init
    = Returns (true, voltage_only) /\
  exists x : DeviceVoltage.t,
    (forall out : DeviceVoltage.t,
       get id out voltage_only = Returns (true, x)) /\
    (forall out n,
       getAsText id out n voltage_only = PropertyTraits.serialize x out n).
Proof.
  intros id.
  assert (H : setFromText id (Some "1015"%string) PropertyStore_init
              = Returns (true, voltage_only)) by (vm_compute; reflexivity).
  split; [reflexivity|]. split; [exact H|].
  destruct (proj2 (write_then_read DeviceVoltage.t id PropertyStore_init
                     voltage_only eq_refl) _ H) as (x & _ & Hg & Ht).
  exists x. split; assumption.
Defined.

Lemma setRaw_then_getRaw_witness :
  let id := PropertyID.DeviceVoltage in
  let data := to_bytes (PropertyTraits.default_v DeviceVoltage.t) in
  handler id = Returns (makeHandler DeviceVoltage.t) /\
  setRaw id data 4 PropertyStore_init = Returns (false, PropertyStore_init).
Proof.
  intros id data. split; [reflexivity|].
  apply (proj1 (setRaw_then_getRaw id (makeHandler DeviceVoltage.t) data 4
                  PropertyStore_init eq_refl)).
  discriminate.
Defined.

Lemma set_twice_is_set_once_witness :
  apply (SetFromText (Some "1015"%string)) PropertyID.DeviceVoltage
    PropertyStore_init = Returns (true, voltage_only) /\
  apply (SetFromText (Some "1015"%string)) PropertyID.DeviceVoltage
    voltage_only = Returns (true, voltage_only).
Proof.
  assert (H : apply (SetFromText (Some "1015"%string))
                PropertyID.DeviceVoltage PropertyStore_init
              = Returns (true, voltage_only)) by (vm_compute; reflexivity).
  split; [exact H|].
  exact (set_twice_is_set_once _ _ _ _ H).
Defined.

(** ** Text in, text out *)

(** X9. Text round trip of a voltage through the store. For every valid
    voltage [x], handing the store the text that [serialize] writes for
    [x] is accepted, leaves [x] in the slot, and [getAsText] then renders
    that same text. *)
Theorem voltage_text_round_trip (x : DeviceVoltage.t) (st : PropertyStore) :
  well_sized st ->
  PropertyTraits.validate x = true ->
  let id := PropertyID.DeviceVoltage in
  let text := format_d (word.signed (DeviceVoltage.value x)) in
  exists st',
    setFromText id (Some text) st = Returns (true, st') /\
    (forall out : DeviceVoltage.t, get id out st' = Returns (true, x)) /\
    (forall out n, getAsText id out n st' = snprintf out n text).
Proof.
  intros W Hv id text.
  destruct (set_then_get DeviceVoltage.t id x st W eq_refl Hv)
    as (st' & Hs & _ & _ & Hg).
  exists st'. split; [|split].
  - rewrite (setFromText_unfold DeviceVoltage.t id (Some text) st eq_refl).
    cbv zeta. unfold text. rewrite DeviceVoltage_text_round_trip. exact Hs.
  - exact Hg.
  - intros out n.
    now rewrite (proj2 (set_read_back DeviceVoltage.t id x st st' eq_refl Hs)).
Qed.

Lemma voltage_text_round_trip_witness :
  let x := PropertyTraits.default_v DeviceVoltage.t in
  exists st',
    setFromText PropertyID.DeviceVoltage (Some "1013"%string)
      PropertyStore_init = Returns (true, st') /\
    (forall out n,
       getAsText PropertyID.DeviceVoltage out n st'
       = snprintf out n "1013"%string).
Proof.
  intros x.
  destruct (voltage_text_round_trip x PropertyStore_init well_sized_init)
    as (st' & Hs & _ & Ht).
  - vm_compute. reflexivity.
  - exists st'. split; [exact Hs|exact Ht].
Defined.

(** ** What [getAsText] returns *)

Lemma string_length_append (a b : string) :
  String.length (a ++ b) = (String.length a + String.length b)%nat.
Proof. induction a as [|c a IH]; simpl; auto. Qed.

Lemma string_of_uint_nonempty (d : Decimal.uint) :
  (0 < String.length (NilZero.string_of_uint d))%nat.
Proof. destruct d; simpl; lia. Qed.

Lemma decimal_nonempty (z : Z) : (0 < String.length (decimal z))%nat.
Proof.
  unfold decimal. destruct (Z.to_int z) as [d|d]; cbn [NilZero.string_of_int].
  - apply string_of_uint_nonempty.
  - simpl. lia.
Qed.

Lemma format_2f_nonempty (x : float) : (0 < String.length (format_2f x))%nat.
Proof.
  unfold format_2f. rewrite string_length_append.
  destruct (F32.val x); simpl; try lia.
  rewrite string_length_append.
  pose proof (decimal_nonempty (hundredths (Z.pos m) e / 100)). lia.
Qed.

Lemma rendering_nonempty (id : PropertyID) (buf : list byte) :
  (0 < String.length (rendering id buf))%nat.
Proof.
  unfold rendering. destruct (id =? PropertyID.TemperatureSetpoint)%N.
  - apply format_2f_nonempty.
  - apply decimal_nonempty.
Qed.

(** X10. What [getAsText] returns. On a store that set operations lead to
    and an identifier in range: if the slot is empty the result is -1 and
    the buffer is untouched; if it holds a value there is a non-empty
    text, the same for every buffer, such that the result is the length
    of the whole text whatever the capacity [n], nothing is written when
    [n] is zero, and otherwise the buffer receives the first [n - 1]
    characters of the text (all of it when it fits) and a NUL. A buffer
    that is too small is never reported by a negative result. *)
Theorem getAsText_result (id : PropertyID) (st : PropertyStore) :
  in_range id -> reachable st ->
  exists s,
    index (slots st) (static_cast_size_t id) = Returns s /\
    (Slot.has_value s = false ->
     forall out n, getAsText id out n st = Returns (-1, out)) /\
    (Slot.has_value s = true ->
     exists text,
       (0 < String.length text)%nat /\
       forall out n, (n <= length out)%nat ->
         getAsText id out n st =
         Returns (Z.of_nat (String.length text),
                  match n with
                  | O => out
                  | S k =>
                      firstn k (list_ascii_of_string text) ++ [zero]
                      ++ skipn (S (Nat.min k (String.length text))) out
                  end)).
Proof.
  intros Hr Hreach.
  pose proof (reachable_valid st Hreach) as V.
  destruct (in_range_handler id Hr) as [h Hh].
  destruct (store_valid_slot id st h V Hh) as (s & Hs & Lb & _).
  exists s. split; [exact Hs|split].
  - intros He out n. exact (getAsText_absent id st s out n Hr Hs He).
  - intros Hv. exists (rendering id (Slot.buf s)).
    split; [apply rendering_nonempty|].
    intros out n Lo.
    rewrite (getAsText_present id st s out n Hr Hs Lb Hv).
    now apply snprintf_defined.
Qed.

Lemma getAsText_result_witness :
  let id := PropertyID.DeviceVoltage in
  in_range id /\ reachable voltage_only /\
  exists s,
    index (slots voltage_only) (static_cast_size_t id) = Returns s /\
    Slot.has_value s = true /\
    exists text,
      (0 < String.length text)%nat /\
      getAsText id (repeat "x"%char 8) 3 voltage_only =
      Returns (Z.of_nat (String.length text),
               firstn 2 (list_ascii_of_string text) ++ [zero]
               ++ skipn (S (Nat.min 2 (String.length text)))
                    (repeat "x"%char 8)).
Proof.
  intros id.
  assert (Hr : in_range id) by (unfold in_range; vm_compute; lia).
  split; [exact Hr|]. split; [exact reachable_voltage_only|].
  destruct (getAsText_result id voltage_only Hr reachable_voltage_only)
    as (s & Hs & _ & Hp).
  assert (Hv : Slot.has_value s = true).
  { vm_compute in Hs. inversion Hs. reflexivity. }
  exists s. split; [exact Hs|]. split; [exact Hv|].
  destruct (Hp Hv) as (text & Ln & Ht).
  exists text. split; [exact Ln|].
  apply (Ht (repeat "x"%char 8) 3%nat). simpl. lia.
Defined.

(* ===================================================================== *)
(** * Validation of floating-point values *)
(* ===================================================================== *)

Lemma lor_high_bit (m : Z) :
  0 <= m < 2 ^ 23 -> Z.lor m (Z.shiftl 1 23) = m + 2 ^ 23.
Proof.
  intros B. change (Z.shiftl 1 23) with (2 ^ 23).
  assert (D : Z.land m (2 ^ 23) = 0).
  { apply Z.bits_inj'. intros i Hi. rewrite Z.land_spec, Z.bits_0.
    rewrite Z.pow2_bits_eqb by lia.
    destruct (Z.eqb_spec 23 i) as [<-|N]; [|apply andb_false_r].
    rewrite andb_true_r.
    destruct (Z.eq_dec m 0) as [->|Nz]; [apply Z.bits_0|].
    apply Z.bits_above_log2; [lia|]. apply Z.log2_lt_pow2; lia. }
  rewrite <- Z.lxor_lor by exact D. now rewrite Z.add_nocarry_lxor.
Qed.

(** Every bit pattern denotes a number in canonical form. *)
Lemma of_bits_canonical (b : Z) : canonical (F32.of_bits b).
Proof.
  unfold F32.of_bits.
  assert (Be : 0 <= Z.land (Z.shiftr b 23) 255 < 256).
  { change 255 with (Z.ones 8). rewrite Z.land_ones by lia.
    apply Z.mod_pos_bound. lia. }
  assert (Bm : 0 <= Z.land b (Z.ones 23) < 2 ^ 23).
  { rewrite Z.land_ones by lia. apply Z.mod_pos_bound. lia. }
  destruct (Z.eqb_spec (Z.land (Z.shiftr b 23) 255) 0) as [E0|N0].
  - destruct (Z.land b (Z.ones 23)) as [|p|p]; cbn [canonical]; auto.
    repeat split; lia.
  - destruct (Z.eqb_spec (Z.land (Z.shiftr b 23) 255) 255) as [E1|N1].
    + destruct (Z.land b (Z.ones 23) =? 0); exact I.
    + rewrite lor_high_bit by exact Bm.
      destruct (Z.land b (Z.ones 23) + 2 ^ 23) as [|p|p] eqn:E;
        cbn [canonical]; auto.
      repeat split; lia.
Qed.

Lemma pow2_step (m1 m2 a b : Z) :
  0 <= a < b -> 0 < m1 < 2 ^ 24 -> 2 ^ 23 <= m2 ->
  m1 * 2 ^ a < m2 * 2 ^ b.
Proof.
  intros Hab H1 H2.
  replace b with (a + 1 + (b - a - 1)) by lia.
  rewrite !Z.pow_add_r by lia. change (2 ^ 1) with 2.
  change (2 ^ 24) with 16777216 in H1. change (2 ^ 23) with 8388608 in H2.
  assert (P : 0 < 2 ^ a) by (apply Z.pow_pos_nonneg; lia).
  assert (Q : 0 < 2 ^ (b - a - 1)) by (apply Z.pow_pos_nonneg; lia).
  set (p := 2 ^ a) in *. set (q := 2 ^ (b - a - 1)) in *.
  assert (m1 * p < 16777216 * p) by nia.
  assert (8388608 * (p * 2) <= m2 * (p * 2)) by nia.
  assert (m2 * (p * 2) <= m2 * (p * 2) * q) by nia.
  lia.
Qed.

(** On canonical numbers, [SFcompare] compares the numbers denoted. *)
Lemma SFcompare_scaled (f1 f2 : spec_float) (q1 q2 : Z) :
  canonical f1 -> canonical f2 ->
  scaled f1 = Some q1 -> scaled f2 = Some q2 ->
  SFcompare f1 f2 = Some (q1 ?= q2).
Proof.
  intros C1 C2 S1 S2.
  destruct f1 as [s1|s1| |s1 m1 e1]; try discriminate;
    destruct f2 as [s2|s2| |s2 m2 e2]; try discriminate;
    cbn [scaled] in S1, S2; inversion S1; inversion S2; subst q1 q2;
    cbn [SFcompare canonical] in *.
  - reflexivity.
  - destruct C2 as (_ & L2 & _).
    assert (0 < 2 ^ (e2 + 149)) by (apply Z.pow_pos_nonneg; lia).
    f_equal. symmetry. destruct s2.
    + apply Z.compare_gt_iff. nia.
    + apply Z.compare_lt_iff. nia.
  - destruct C1 as (_ & L1 & _).
    assert (0 < 2 ^ (e1 + 149)) by (apply Z.pow_pos_nonneg; lia).
    f_equal. symmetry. destruct s1.
    + apply Z.compare_lt_iff. nia.
    + apply Z.compare_gt_iff. nia.
  - destruct C1 as (U1 & L1 & N1), C2 as (U2 & L2 & N2).
    assert (P1 : 0 < 2 ^ (e1 + 149)) by (apply Z.pow_pos_nonneg; lia).
    assert (P2 : 0 < 2 ^ (e2 + 149)) by (apply Z.pow_pos_nonneg; lia).
    f_equal. symmetry.
    destruct s1, s2.
    + destruct (Z.compare_spec e1 e2) as [->|Lt|Gt].
      * rewrite Pos.compare_cont_spec. cbn [Pos.switch_Eq].
        change (Pos.compare m1 m2) with (Z.pos m1 ?= Z.pos m2).
        destruct (Z.compare_spec (Z.pos m1) (Z.pos m2)) as [E|L|G];
          cbn [CompOpp].
        -- apply Z.compare_eq_iff. nia.
        -- apply Z.compare_gt_iff. nia.
        -- apply Z.compare_lt_iff. nia.
      * apply Z.compare_gt_iff.
        pose proof (pow2_step (Z.pos m1) (Z.pos m2) (e1 + 149) (e2 + 149)).
        lia.
      * apply Z.compare_lt_iff.
        pose proof (pow2_step (Z.pos m2) (Z.pos m1) (e2 + 149) (e1 + 149)).
        lia.
    + apply Z.compare_lt_iff. nia.
    + apply Z.compare_gt_iff. nia.
    + destruct (Z.compare_spec e1 e2) as [->|Lt|Gt].
      * rewrite Pos.compare_cont_spec. cbn [Pos.switch_Eq].
        change (Pos.compare m1 m2) with (Z.pos m1 ?= Z.pos m2).
        destruct (Z.compare_spec (Z.pos m1) (Z.pos m2)) as [E|L|G].
        -- apply Z.compare_eq_iff. nia.
        -- apply Z.compare_lt_iff. nia.
        -- apply Z.compare_gt_iff. nia.
      * apply Z.compare_lt_iff.
        pose proof (pow2_step (Z.pos m1) (Z.pos m2) (e1 + 149) (e2 + 149)).
        lia.
      * apply Z.compare_gt_iff.
        pose proof (pow2_step (Z.pos m2) (Z.pos m1) (e2 + 149) (e1 + 149)).
        lia.
Qed.

Lemma SFleb_scaled (f1 f2 : spec_float) (q1 q2 : Z) :
  canonical f1 -> canonical f2 ->
  scaled f1 = Some q1 -> scaled f2 = Some q2 ->
  SFleb f1 f2 = (q1 <=? q2).
Proof.
  intros C1 C2 S1 S2. unfold SFleb.
  rewrite (SFcompare_scaled f1 f2 q1 q2 C1 C2 S1 S2).
  unfold Z.leb. now destruct (q1 ?= q2).
Qed.

Lemma val_canonical (v : float) : canonical (F32.val v).
Proof. apply of_bits_canonical. Qed.

(** A range check [lo <= v && v <= hi] with finite bounds, in terms of
    the numbers denoted. *)
Lemma between_scaled_sf (fv flo fhi : spec_float) (qlo qhi : Z) :
  canonical fv -> canonical flo -> canonical fhi ->
  scaled flo = Some qlo ->
  scaled fhi = Some qhi ->
  SFleb flo fv && SFleb fv fhi = true <->
  exists q, scaled fv = Some q /\ qlo <= q <= qhi.
Proof.
  intros Cv Clo Chi Slo Shi.
  destruct (scaled fv) as [q|] eqn:Sv.
  - rewrite (SFleb_scaled _ _ qlo q Clo Cv Slo Sv).
    rewrite (SFleb_scaled _ _ q qhi Cv Chi Sv Shi).
    rewrite andb_true_iff, !Z.leb_le. split.
    + intros B. exists q. auto.
    + intros (q' & E & B). inversion E. subst q'. exact B.
  - split; [|intros (q & E & _); discriminate].
    intros H. exfalso.
    destruct fv as [s|s| |s m e]; cbn [scaled] in Sv; try discriminate;
      destruct flo as [sl|sl| |sl ml el]; cbn [scaled] in Slo;
      try discriminate;
      destruct fhi as [sh|sh| |sh mh eh]; cbn [scaled] in Shi;
      try discriminate;
      try destruct s; cbn [SFleb SFcompare andb] in H; discriminate.
Qed.

Lemma between_scaled (v lo hi : float) (qlo qhi : Z) :
  scaled (F32.val lo) = Some qlo ->
  scaled (F32.val hi) = Some qhi ->
  F32.ge v lo && F32.le v hi = true <->
  exists q, scaled (F32.val v) = Some q /\ qlo <= q <= qhi.
Proof.
  intros Slo Shi. unfold F32.ge, F32.le.
  apply between_scaled_sf; auto using val_canonical.
Qed.

(** X11. What the range checks on [float] accept. [validate] of the
    temperature setpoint of the store accepts exactly the binary32 values
    that denote a number between -50 and 150; that of the setpoint of
    [ParameterTraits], between 0 and 100; that of the high-temperature
    alarm, between 0 and 150. A NaN and the infinities are rejected by
    all three. *)
Theorem float_validate_accepts_the_interval :
  (forall x : TemperatureSetpoint.t,
     PropertyTraits.validate x = true <->
     exists q, scaled (F32.val (TemperatureSetpoint.value x)) = Some q /\
               -50 * 2 ^ 149 <= q <= 150 * 2 ^ 149) /\
  (forall x : ParametersMin.TemperatureSetpoint.t,
     ParametersMin.ParameterTraits.validate x = true <->
     exists q,
       scaled (F32.val (ParametersMin.TemperatureSetpoint.value x)) = Some q
       /\ 0 <= q <= 100 * 2 ^ 149) /\
  (forall x : ParametersMin.HighTemperatureAlarm.t,
     ParametersMin.ParameterTraits.validate x = true <->
     exists q,
       scaled (F32.val (ParametersMin.HighTemperatureAlarm.threshold x))
       = Some q
       /\ 0 <= q <= 150 * 2 ^ 149).
Proof.
  split; [|split]; intros [v].
  - exact (between_scaled v (F32.lit true 500 (-1)) (F32.lit false 1500 (-1))
             (-50 * 2 ^ 149) (150 * 2 ^ 149) eq_refl eq_refl).
  - exact (between_scaled v (F32.lit false 0 (-1)) (F32.lit false 1000 (-1))
             0 (100 * 2 ^ 149) eq_refl eq_refl).
  - exact (between_scaled v (F32.lit false 0 (-1)) (F32.lit false 1500 (-1))
             0 (150 * 2 ^ 149) eq_refl eq_refl).
Qed.

(* ===================================================================== *)
(** * Values read, slot capacity, out-parameters *)
(* ===================================================================== *)

(** X12. Every value read is valid. On a store that set operations lead
    to, whatever a typed [get] of the type bound to the identifier
    returns with true satisfies that type's [validate]. *)
Theorem values_read_are_valid (T : Type) {Tr : PropertyTraits.t T}
    {R : ObjectRepr T} {Rok : ObjectReprOk T}
    (id : PropertyID) (st : PropertyStore) (out x : T) :
  reachable st ->
  handler id = Returns (makeHandler T) ->
  get id out st = Returns (true, x) ->
  PropertyTraits.validate x = true.
Proof.
  intros Hreach Hh Hg. apply reachable_valid in Hreach.
  destruct (store_valid_slot id st _ Hreach Hh) as (s & Hs & Lb & Hv).
  pose proof (handler_size_fits T id Hh) as Lk.
  unfold get, getRaw in Hg. rewrite Hs in Hg. cbn [bind] in Hg.
  destruct (Slot.has_value s); cbn [negb orb] in Hg;
    [|cbn [bind] in Hg; discriminate].
  destruct (Hv eq_refl) as [Esz Hval].
  cbn [makeHandler PropertyHandler.size] in Esz.
  rewrite Esz, Nat.eqb_refl in Hg. cbn [negb] in Hg.
  rewrite memcpy_fits in Hg by (rewrite ?length_to_bytes; lia).
  cbn [bind] in Hg. inversion Hg as [Hx].
  rewrite skipn_whole by apply length_to_bytes. rewrite List.app_nil_r.
  rewrite validate_defined in Hval by lia. now inversion Hval.
Qed.

Lemma values_read_are_valid_witness :
  let out := {| DeviceVoltage.value := word.of_Z 0 |} in
  let x := {| DeviceVoltage.value := word.of_Z 1015 |} in
  reachable voltage_only /\
  get PropertyID.DeviceVoltage out voltage_only = Returns (true, x) /\
  PropertyTraits.validate x = true.
Proof.
  intros out x.
  assert (Hg : get PropertyID.DeviceVoltage out voltage_only
               = Returns (true, x)) by (vm_compute; reflexivity).
  split; [exact reachable_voltage_only|]. split; [exact Hg|].
  exact (values_read_are_valid DeviceVoltage.t PropertyID.DeviceVoltage
           voltage_only out x reachable_voltage_only eq_refl Hg).
Defined.

(** The loop of [compute_max_size], on any table, from any start. *)
Lemma fold_max_size (table : list PropertyHandler.t) (m0 : nat) :
  let m := fold_left
             (fun m h => if (m <? PropertyHandler.size h)%nat
                         then PropertyHandler.size h else m) table m0 in
  (m0 <= m)%nat /\
  (forall h, In h table -> (PropertyHandler.size h <= m)%nat) /\
  (m = m0 \/ exists h, In h table /\ PropertyHandler.size h = m).
Proof.
  revert m0. induction table as [|h t IH]; intros m0; cbn [fold_left].
  - repeat split; auto. intros h [].
  - destruct (IH (if (m0 <? PropertyHandler.size h)%nat
                  then PropertyHandler.size h else m0)) as (L & U & A).
    destruct (Nat.ltb_spec m0 (PropertyHandler.size h)) as [Lt|Ge];
      cbv zeta in *.
    + split; [lia|]. split.
      * intros h' [<-|Hin]; [exact L|now apply U].
      * right. destruct A as [E|(h' & Hin & E)].
        -- exists h. split; [now left|now rewrite E].
        -- exists h'. split; [now right|exact E].
    + split; [exact L|]. split.
      * intros h' [<-|Hin]; [lia|now apply U].
      * destruct A as [E|(h' & Hin & E)]; [now left|right].
        exists h'. split; [now right|exact E].
Qed.

(** X13. The slot capacity is the largest registered size.
    [kMaxPropertySize] is at least the size of every entry of the handler
    table and is the size of one of them, so every registered value fits
    a slot and no slot is larger than the largest value needs. *)
Theorem max_size_is_the_maximum :
  (forall h, In h kPropertyTable ->
     (PropertyHandler.size h <= kMaxPropertySize)%nat) /\
  (exists h, In h kPropertyTable /\
     PropertyHandler.size h = kMaxPropertySize) /\
  Forall (fun s => length (Slot.buf s) = kMaxPropertySize)
    (slots PropertyStore_init).
Proof.
  destruct (fold_max_size kPropertyTable O) as (_ & U & A).
  fold compute_max_size in U, A. fold kMaxPropertySize in U, A.
  split; [exact U|]. split.
  - destruct A as [E|A]; [|exact A]. vm_compute in E. discriminate.
  - repeat constructor.
Qed.

(** X14. The out-parameter of [parse]. [PropertyTraits<T>::parse] leaves
    its out-parameter as it was whenever it returns false.
    [ParameterTraits<T>::parse] assigns the number it read before it
    validates: whenever the text has a numeric prefix the out-parameter
    holds that number afterwards, also when the result is false, as for
    the text 200 on a setpoint. *)
Theorem parse_out_parameter :
  (forall text (out : TemperatureSetpoint.t),
     fst (PropertyTraits.parse text out) = false ->
     snd (PropertyTraits.parse text out) = out) /\
  (forall text (out : DeviceVoltage.t),
     fst (PropertyTraits.parse text out) = false ->
     snd (PropertyTraits.parse text out) = out) /\
  (forall s (out : ParametersMin.TemperatureSetpoint.t),
     snd (strtof s) <> O ->
     snd (ParametersMin.ParameterTraits.parse (Some s) out)
     = {| ParametersMin.TemperatureSetpoint.value := fst (strtof s) |}) /\
  (forall s (out : ParametersMin.HighTemperatureAlarm.t),
     snd (strtof s) <> O ->
     snd (ParametersMin.ParameterTraits.parse (Some s) out)
     = {| ParametersMin.HighTemperatureAlarm.threshold := fst (strtof s) |})
  /\
  (forall out : ParametersMin.TemperatureSetpoint.t,
     ParametersMin.ParameterTraits.parse (Some "200"%string) out
     = (false, {| ParametersMin.TemperatureSetpoint.value :=
                    F32.lit false 200 0 |})).
Proof.
  split; [|split; [|split; [|split]]].
  - intros [s|] out; cbn [PropertyTraits.parse TemperatureSetpoint_traits];
      [|reflexivity].
    destruct (strtof s) as [v [|k]]; cbn [fst snd];
      [reflexivity|discriminate].
  - intros [s|] out; cbn [PropertyTraits.parse DeviceVoltage_traits];
      [|reflexivity].
    destruct (strtol s) as [v [|k]]; cbn [fst snd];
      [reflexivity|discriminate].
  - intros s out N.
    cbn [ParametersMin.ParameterTraits.parse
         ParametersMin.TemperatureSetpoint_traits].
    destruct (strtof s) as [v [|k]]; cbn [fst snd] in *;
      [now elim N|reflexivity].
  - intros s out N.
    cbn [ParametersMin.ParameterTraits.parse
         ParametersMin.HighTemperatureAlarm_traits].
    destruct (strtof s) as [v [|k]]; cbn [fst snd] in *;
      [now elim N|reflexivity].
  - intros out. vm_compute. reflexivity.
Qed.

Lemma parse_out_parameter_witness :
  let out := PropertyTraits.default_v TemperatureSetpoint.t in
  fst (PropertyTraits.parse (Some "volts"%string) out) = false /\
  snd (PropertyTraits.parse (Some "volts"%string) out) = out.
Proof.
  intros out.
  assert (F : fst (PropertyTraits.parse (Some "volts"%string) out) = false)
    by (vm_compute; reflexivity).
  split; [exact F|].
  exact (proj1 parse_out_parameter (Some "volts"%string) out F).
Defined.

(* ===================================================================== *)
(** * White space before and text after a number *)
(* ===================================================================== *)

Lemma skip_spaces_app (ws t : string) :
  all_spaces ws = true ->
  skip_spaces (ws ++ t)
  = ((String.length ws + fst (skip_spaces t))%nat, snd (skip_spaces t)).
Proof.
  induction ws as [|c ws IH]; cbn [all_spaces append skip_spaces String.length].
  - intros _. now destruct (skip_spaces t).
  - intros H. apply andb_true_iff in H. destruct H as [Hc Hw].
    rewrite Hc, (IH Hw). reflexivity.
Qed.

Lemma strtol_leading_spaces (ws t : string) :
  all_spaces ws = true ->
  strtol (ws ++ t)
  = (fst (strtol t),
     match snd (strtol t) with
     | O => O
     | S n => (String.length ws + S n)%nat
     end).
Proof.
  intros H. unfold strtol. rewrite (skip_spaces_app ws t H).
  destruct (skip_spaces t) as [n s1]. cbn [fst snd].
  destruct (scan_sign s1) as [[neg sg] s2].
  destruct (scan_digits digit 10 s2 0) as [[v nd] r].
  destruct nd; cbn [fst snd]; [reflexivity|].
  replace (n + sg + S nd)%nat with (S (n + sg + nd)) by lia.
  f_equal. lia.
Qed.

Lemma scan_no_digit (rest : string) (acc : Z) :
  no_leading_digit rest = true ->
  scan_digits digit 10 rest acc = (acc, O, rest).
Proof.
  destruct rest as [|c r]; cbn [no_leading_digit scan_digits];
    [reflexivity|].
  destruct (digit c); [discriminate|reflexivity].
Qed.

Lemma scan_digits_numeral_rest (d : Decimal.uint) (rest : string) (acc : Z) :
  no_leading_digit rest = true ->
  scan_digits digit 10 (NilEmpty.string_of_uint d ++ rest) acc
  = (numeral_acc d acc, String.length (NilEmpty.string_of_uint d), rest).
Proof.
  intros Hr. revert acc. induction d; intros acc;
    cbn [NilEmpty.string_of_uint append scan_digits numeral_acc
         String.length];
    try (now apply scan_no_digit);
    (match goal with
     | |- context [digit ?c] =>
         change (digit c) with (Some (code c - 48)); cbv beta iota
     end; rewrite IHd; reflexivity).
Qed.

Lemma strtol_unsigned_rest (u : Decimal.uint) (rest : string) :
  no_leading_digit rest = true ->
  strtol (NilZero.string_of_uint u ++ rest)
  = (clamp_long (Z.of_uint u), String.length (NilZero.string_of_uint u)).
Proof.
  intros Hr. rewrite <- numeral_acc_0.
  destruct u;
    unfold NilZero.string_of_uint, strtol;
    cbn [NilEmpty.string_of_uint append skip_spaces numeral_acc];
    (match goal with
     | |- context [isspace ?c] =>
         change (isspace c) with false; cbv beta iota;
         cbn [scan_sign scan_digits];
         change (digit c) with (Some (code c - 48)); cbv beta iota
     end);
    [rewrite (scan_no_digit rest _ Hr)
    |rewrite (scan_digits_numeral_rest _ rest _ Hr) ..]; reflexivity.
Qed.

Lemma strtol_negative_rest (u : Decimal.uint) (rest : string) :
  no_leading_digit rest = true ->
  strtol (String "-" (NilZero.string_of_uint u) ++ rest)
  = (clamp_long (- Z.of_uint u),
     S (String.length (NilZero.string_of_uint u))).
Proof.
  intros Hr. rewrite <- numeral_acc_0.
  destruct u;
    unfold NilZero.string_of_uint, strtol;
    cbn [NilEmpty.string_of_uint append skip_spaces numeral_acc];
    change (isspace "-") with false; cbv beta iota;
    cbn [scan_sign scan_digits];
    (match goal with
     | |- context [digit ?c] =>
         change (digit c) with (Some (code c - 48)); cbv beta iota
     end);
    [rewrite (scan_no_digit rest _ Hr)
    |rewrite (scan_digits_numeral_rest _ rest _ Hr) ..]; reflexivity.
Qed.

Lemma strtol_numeral_rest (s rest : string) (d : Decimal.int) :
  NilZero.int_of_string s = Some d ->
  no_leading_digit rest = true ->
  strtol (s ++ rest) = (clamp_long (Z.of_int d), String.length s).
Proof.
  intros H Hr. apply NilZero.sis in H. subst s.
  destruct d as [u|u]; cbn [NilZero.string_of_int Z.of_int].
  - now apply strtol_unsigned_rest.
  - now apply strtol_negative_rest.
Qed.

(** X15. White space before and text after a number. [parse] of a voltage
    skips leading white space and stops at the first character after the
    digits: a decimal numeral, preceded by white space and followed by
    any text that does not start with a digit, parses to what the numeral
    alone parses to, and [setFromText] does with it what it does with the
    numeral alone. *)
Theorem voltage_text_is_read_as_a_prefix (ws s rest : string)
    (d : Decimal.int) :
  all_spaces ws = true ->
  NilZero.int_of_string s = Some d ->
  no_leading_digit rest = true ->
  (forall out : DeviceVoltage.t,
     PropertyTraits.parse (Some (ws ++ s ++ rest)%string) out
     = PropertyTraits.parse (Some s) out) /\
  (forall st,
     setFromText PropertyID.DeviceVoltage (Some (ws ++ s ++ rest)%string) st
     = setFromText PropertyID.DeviceVoltage (Some s) st).
Proof.
  intros Hw Hs Hr.
  assert (P : forall out : DeviceVoltage.t,
            PropertyTraits.parse (Some (ws ++ s ++ rest)%string) out
            = PropertyTraits.parse (Some s) out).
  { intros out. cbn [PropertyTraits.parse DeviceVoltage_traits].
    rewrite (strtol_leading_spaces ws _ Hw).
    rewrite (strtol_numeral_rest s rest d Hs Hr).
    rewrite (strtol_numeral s d Hs). cbn [fst snd].
    destruct s as [|c s]; [discriminate|].
    cbn [String.length]. rewrite Nat.add_succ_r. reflexivity. }
  split; [exact P|]. intros st.
  rewrite !(setFromText_unfold DeviceVoltage.t PropertyID.DeviceVoltage _ st
              eq_refl).
  cbv zeta. now rewrite P.
Qed.

Lemma voltage_text_is_read_as_a_prefix_witness :
  all_spaces "  " = true /\
  NilZero.int_of_string "1015" = Some (Decimal.Pos (Decimal.D1 (Decimal.D0
    (Decimal.D1 (Decimal.D5 Decimal.Nil))))) /\
  no_leading_digit " mV" = true /\
  (forall st,
     setFromText PropertyID.DeviceVoltage (Some "  1015 mV"%string) st
     = setFromText PropertyID.DeviceVoltage (Some "1015"%string) st).
Proof.
  split; [reflexivity|]. split; [reflexivity|]. split; [reflexivity|].
  exact (proj2 (voltage_text_is_read_as_a_prefix "  " "1015" " mV" _
                  eq_refl eq_refl eq_refl)).
Defined.

Lemma scan_mantissa_chars (dig : ascii -> option Z) (base : Z) (s : string) :
  let '(_, nd, _, nc, _) := scan_mantissa dig base s in (nd <= nc)%nat.
Proof.
  unfold scan_mantissa.
  destruct (scan_digits dig base s 0) as [[i ni] r1].
  destruct r1 as [|c r2]; [lia|].
  destruct c as [[|] [|] [|] [|] [|] [|] [|] [|]]; try lia.
  destruct (scan_digits dig base r2 i) as [[m nf] r3]. lia.
Qed.

Lemma strtof_leading_spaces (ws t : string) :
  all_spaces ws = true ->
  strtof (ws ++ t)
  = (fst (strtof t),
     match snd (strtof t) with
     | O => O
     | S n => (String.length ws + S n)%nat
     end).
Proof.
  intros H. unfold strtof. rewrite (skip_spaces_app ws t H).
  destruct (skip_spaces t) as [n s1]. cbn [fst snd].
  destruct (scan_sign s1) as [[neg sg] s2]. cbv zeta.
  set (hex := fun lead : nat =>
    match s2 with
    | String "0" (String x r) =>
        if Ascii.eqb (tolower x) "x" then
          let '(m, nd, nf, nc, r') := scan_mantissa xdigit 16 r in
          match nd with
          | O => None
          | S _ =>
              let '(e, ne) := scan_exponent "p" r' in
              Some (F32.mk (F32.of_binary neg m (e - 4 * Z.of_nat nf)),
                    (lead + 2 + nc + ne)%nat)
          end
        else None
    | _ => None
    end).
  change (match s2 with
          | String "0" (String x r) =>
              if Ascii.eqb (tolower x) "x" then
                let '(m, nd, nf, nc, r') := scan_mantissa xdigit 16 r in
                match nd with
                | O => None
                | S _ =>
                    let '(e, ne) := scan_exponent "p" r' in
                    Some (F32.mk (F32.of_binary neg m (e - 4 * Z.of_nat nf)),
                          (String.length ws + n + sg + 2 + nc + ne)%nat)
                end
              else None
          | _ => None
          end) with (hex (String.length ws + n + sg)%nat).
  change (match s2 with
          | String "0" (String x r) =>
              if Ascii.eqb (tolower x) "x" then
                let '(m, nd, nf, nc, r') := scan_mantissa xdigit 16 r in
                match nd with
                | O => None
                | S _ =>
                    let '(e, ne) := scan_exponent "p" r' in
                    Some (F32.mk (F32.of_binary neg m (e - 4 * Z.of_nat nf)),
                          (n + sg + 2 + nc + ne)%nat)
                end
              else None
          | _ => None
          end) with (hex (n + sg)%nat).
  assert (Hhex : forall lead,
            hex lead = None /\ hex (String.length ws + lead)%nat = None
            \/ exists v k, hex lead = Some (v, S k)
                 /\ hex (String.length ws + lead)%nat
                    = Some (v, (String.length ws + S k)%nat)).
  { intros lead. unfold hex.
    destruct s2 as [|c0 [|x r]]; auto.
    - destruct c0 as [[|] [|] [|] [|] [|] [|] [|] [|]]; auto.
    - destruct c0 as [[|] [|] [|] [|] [|] [|] [|] [|]]; auto.
      destruct (Ascii.eqb (tolower x) "x"); auto.
      destruct (scan_mantissa xdigit 16 r) as [[[[m nd] nf] nc] r'].
      destruct nd; auto.
      destruct (scan_exponent "p" r') as [e ne]. right.
      exists (F32.mk (F32.of_binary neg m (e - 4 * Z.of_nat nf))),
             (lead + 1 + nc + ne)%nat.
      split; do 2 f_equal; lia. }
  replace (String.length ws + n + sg)%nat
    with (String.length ws + (n + sg))%nat by lia.
  destruct (Hhex (n + sg)%nat) as [[E1 E2]|(v & k & E1 & E2)];
    rewrite E1, E2; cbn [fst snd]; [|reflexivity].
  pose proof (scan_mantissa_chars digit 10 s2) as Hc.
  destruct (scan_mantissa digit 10 s2) as [[[[m nd] nf] nc] r'].
  destruct nd as [|nd].
  - destruct (prefix_ci "infinity" s2);
      [cbn [fst snd]; rewrite !Nat.add_succ_r; cbn [Nat.add]; f_equal; lia|].
    destruct (prefix_ci "inf" s2);
      [cbn [fst snd]; rewrite !Nat.add_succ_r; cbn [Nat.add]; f_equal; lia|].
    destruct (prefix_ci "nan" s2); cbn [fst snd]; [|reflexivity].
    rewrite !Nat.add_succ_r. cbn [Nat.add]. f_equal. lia.
  - destruct (scan_exponent "e" r') as [e ne]. cbn [fst snd].
    destruct nc as [|nc]; [lia|].
    replace (n + sg + S nc + ne)%nat with (S (n + sg + nc + ne)) by lia.
    f_equal. lia.
Qed.

(** X16. Leading white space is skipped. White space in front of a text
    changes nothing: for every identifier in range [setFromText] does
    with the longer text what it does with the text itself, and the two
    [ParameterTraits] parsers return what they return on the text
    itself. *)
Theorem leading_white_space_is_skipped (ws t : string) :
  all_spaces ws = true ->
  (forall id st, in_range id ->
     setFromText id (Some (ws ++ t)%string) st = setFromText id (Some t) st)
  /\
  (forall out : ParametersMin.TemperatureSetpoint.t,
     ParametersMin.ParameterTraits.parse (Some (ws ++ t)%string) out
     = ParametersMin.ParameterTraits.parse (Some t) out) /\
  (forall out : ParametersMin.HighTemperatureAlarm.t,
     ParametersMin.ParameterTraits.parse (Some (ws ++ t)%string) out
     = ParametersMin.ParameterTraits.parse (Some t) out).
Proof.
  intros Hw. split; [|split].
  - intros id st Hr. apply in_range_cases in Hr. destruct Hr as [-> | ->].
    + rewrite !(setFromText_unfold TemperatureSetpoint.t
                  PropertyID.TemperatureSetpoint _ st eq_refl).
      cbv zeta. cbn [PropertyTraits.parse TemperatureSetpoint_traits].
      rewrite (strtof_leading_spaces ws t Hw).
      destruct (strtof t) as [v [|k]]; cbn [fst snd];
      rewrite ?Nat.add_succ_r; reflexivity.
    + rewrite !(setFromText_unfold DeviceVoltage.t
                  PropertyID.DeviceVoltage _ st eq_refl).
      cbv zeta. cbn [PropertyTraits.parse DeviceVoltage_traits].
      rewrite (strtol_leading_spaces ws t Hw).
      destruct (strtol t) as [v [|k]]; cbn [fst snd];
      rewrite ?Nat.add_succ_r; reflexivity.
  - intros out.
    cbn [ParametersMin.ParameterTraits.parse
         ParametersMin.TemperatureSetpoint_traits].
    rewrite (strtof_leading_spaces ws t Hw).
    destruct (strtof t) as [v [|k]]; cbn [fst snd];
      rewrite ?Nat.add_succ_r; reflexivity.
  - intros out.
    cbn [ParametersMin.ParameterTraits.parse
         ParametersMin.HighTemperatureAlarm_traits].
    rewrite (strtof_leading_spaces ws t Hw).
    destruct (strtof t) as [v [|k]]; cbn [fst snd];
      rewrite ?Nat.add_succ_r; reflexivity.
Qed.

Lemma leading_white_space_is_skipped_witness :
  all_spaces " " = true /\
  (forall st,
     setFromText PropertyID.TemperatureSetpoint (Some " 37.5"%string) st
     = setFromText PropertyID.TemperatureSetpoint (Some "37.5"%string) st).
Proof.
  split; [reflexivity|]. intros st.
  apply (proj1 (leading_white_space_is_skipped " " "37.5" eq_refl)).
  unfold in_range. vm_compute. lia.
Defined.

(** ** Which texts are accepted *)

(** A typed set on a well-sized store returns what [validate] says. *)
Lemma set_result (T : Type) {Tr : PropertyTraits.t T} {R : ObjectRepr T}
    {Rok : ObjectReprOk T} (id : PropertyID) (v : T) (st : PropertyStore) :
  well_sized st ->
  handler id = Returns (makeHandler T) ->
  exists st',
    set id v st = Returns (PropertyTraits.validate v, st') /\
    (PropertyTraits.validate v = false -> st' = st).
Proof.
  intros W Hh. destruct (PropertyTraits.validate v) eqn:Ev.
  - destruct (set_then_get T id v st W Hh Ev) as (st' & Hs & _).
    exists st'. split; [exact Hs|discriminate].
  - exists st. split; [|reflexivity].
    pose proof (handler_size_fits T id Hh) as Lk.
    unfold set, setRaw. rewrite Hh.
    cbn [bind makeHandler PropertyHandler.size PropertyHandler.validate].
    rewrite Nat.eqb_refl. cbn [negb].
    rewrite (memcpy_to_bytes T v (repeat Byte.x00 kMaxPropertySize))
      by (rewrite repeat_length; exact Lk).
    cbn [bind]. rewrite (load_to_bytes T v). cbn [bind]. now rewrite Ev.
Qed.

(** X17. Which texts the store accepts. On a well-sized store,
    [setFromText] always returns, and it returns true exactly: for the
    temperature setpoint, when [strtof] converts a prefix of the text to
    a binary32 value that denotes a number between -50 and 150; for the
    voltage, when [strtol] converts a prefix of the text to a number
    whose low 16 bits, read as [int16_t], lie strictly between 0 and
    20000. When it returns false the store is the one it was given. *)
Theorem texts_accepted (text : cstring) (st : PropertyStore) :
  well_sized st ->
  (exists st',
     setFromText PropertyID.TemperatureSetpoint text st
     = Returns
         (match text with
          | Some s =>
              negb (snd (strtof s) =? 0)%nat
              && match scaled (F32.val (fst (strtof s))) with
                 | Some q => (-50 * 2 ^ 149 <=? q) && (q <=? 150 * 2 ^ 149)
                 | None => false
                 end
          | None => false
          end, st')) /\
  (exists st',
     setFromText PropertyID.DeviceVoltage text st
     = Returns
         (match text with
          | Some s =>
              negb (snd (strtol s) =? 0)%nat
              && (0 <? word.signed (word.of_Z (fst (strtol s)) : int16_t))
              && (word.signed (word.of_Z (fst (strtol s)) : int16_t)
                  <? 20000)
          | None => false
          end, st')).
Proof.
  intros W. split.
  - rewrite (setFromText_unfold TemperatureSetpoint.t
               PropertyID.TemperatureSetpoint text st eq_refl).
    cbv zeta. cbn [PropertyTraits.parse TemperatureSetpoint_traits].
    destruct text as [s|]; [|eauto].
    destruct (strtof s) as [v [|k]]; cbn [fst snd Nat.eqb negb andb];
      [eauto|].
    destruct (set_result TemperatureSetpoint.t
                PropertyID.TemperatureSetpoint
                {| TemperatureSetpoint.value := v |} st W eq_refl)
      as (st' & E & _).
    exists st'. rewrite E. do 2 f_equal.
    pose proof (between_scaled v (F32.lit true 500 (-1))
                  (F32.lit false 1500 (-1)) (-50 * 2 ^ 149) (150 * 2 ^ 149)
                  eq_refl eq_refl) as B.
    cbn [PropertyTraits.validate TemperatureSetpoint_traits
         TemperatureSetpoint.value].
    destruct (F32.ge v (F32.lit true 500 (-1))
              && F32.le v (F32.lit false 1500 (-1))) eqn:Ev.
    + destruct (proj1 B eq_refl) as (q & -> & L & U). symmetry.
      apply andb_true_iff. split; now apply Z.leb_le.
    + destruct (scaled (F32.val v)) as [q|]; [|reflexivity].
      symmetry. apply not_true_is_false. intros C.
      apply andb_true_iff in C. destruct C as [L U].
      apply Z.leb_le in L, U.
      assert (F : false = true) by (apply B; exists q; auto).
      discriminate.
  - rewrite (setFromText_unfold DeviceVoltage.t
               PropertyID.DeviceVoltage text st eq_refl).
    cbv zeta. cbn [PropertyTraits.parse DeviceVoltage_traits].
    destruct text as [s|]; [|eauto].
    destruct (strtol s) as [v [|k]]; cbn [fst snd Nat.eqb negb andb];
      [eauto|].
    destruct (set_result DeviceVoltage.t PropertyID.DeviceVoltage
                {| DeviceVoltage.value := word.of_Z v |} st W eq_refl)
      as (st' & E & _).
    exists st'. rewrite E. reflexivity.
Qed.

Lemma texts_accepted_witness :
  well_sized PropertyStore_init /\
  (exists st',
     setFromText PropertyID.DeviceVoltage (Some "70000"%string)
       PropertyStore_init = Returns (true, st')) /\
  (exists st',
     setFromText PropertyID.TemperatureSetpoint (Some "151"%string)
       PropertyStore_init = Returns (false, st')).
Proof.
  split; [exact well_sized_init|].
  destruct (texts_accepted (Some "70000"%string) PropertyStore_init
              well_sized_init) as (_ & st2 & E2).
  destruct (texts_accepted (Some "151"%string) PropertyStore_init
              well_sized_init) as ((st1 & E1) & _).
  split; [exists st2; exact E2|exists st1; exact E1].
Defined.

(** X18. Decimal numerals that fit [int16_t]. For a decimal numeral
    whose number [v] lies between -32768 and 32767, [setFromText] on the
    voltage returns true exactly when [0 < v < 20000], and after a true
    result [get] returns the voltage whose scalar is [v] and [getAsText]
    renders [v] in canonical decimal. *)
Theorem voltage_numeral_in_range (s : string) (d : Decimal.int)
    (st : PropertyStore) :
  NilZero.int_of_string s = Some d ->
  - 2 ^ 15 <= Z.of_int d < 2 ^ 15 ->
  well_sized st ->
  let id := PropertyID.DeviceVoltage in
  let v := Z.of_int d in
  exists st',
    setFromText id (Some s) st = Returns ((0 <? v) && (v <? 20000), st') /\
    ((0 <? v) && (v <? 20000) = true ->
     (forall out : DeviceVoltage.t,
        exists x, get id out st' = Returns (true, x) /\
                  word.signed (DeviceVoltage.value x) = v) /\
     (forall out n, getAsText id out n st' = snprintf out n (decimal v))).
Proof.
  intros Hs B W id v.
  assert (Sv : word.signed (word.of_Z v : int16_t) = v).
  { rewrite word.signed_of_Z. unfold word.swrap. rewrite Z.mod_small; lia. }
  pose proof (strtol_numeral s d Hs) as E.
  assert (Ec : clamp_long (Z.of_int d) = v).
  { unfold clamp_long, LONG_MIN, LONG_MAX, v. lia. }
  rewrite Ec in E.
  set (x := {| DeviceVoltage.value := word.of_Z v |}).
  assert (P : PropertyTraits.parse (Some s)
                (of_bytes (firstn (sizeof DeviceVoltage.t)
                             (repeat Byte.x00 kMaxPropertySize)))
              = (true, x)).
  { cbn [PropertyTraits.parse DeviceVoltage_traits]. rewrite E.
    destruct s as [|c s]; [discriminate|]. reflexivity. }
  assert (V : PropertyTraits.validate x = (0 <? v) && (v <? 20000)).
  { cbn [PropertyTraits.validate DeviceVoltage_traits DeviceVoltage.value x].
    now rewrite Sv. }
  destruct (set_result DeviceVoltage.t id x st W eq_refl) as (st' & Hset & _).
  exists st'. split.
  - rewrite (setFromText_unfold DeviceVoltage.t id (Some s) st eq_refl).
    cbv zeta. rewrite P, Hset, V. reflexivity.
  - intros A. rewrite V, A in Hset.
    destruct (set_read_back DeviceVoltage.t id x st st' eq_refl Hset)
      as [Hg Ht].
    split.
    + intros out. exists x. split; [apply Hg|exact Sv].
    + intros out n. rewrite Ht.
      cbn [PropertyTraits.serialize DeviceVoltage_traits DeviceVoltage.value x].
      now rewrite Sv.
Qed.

Lemma voltage_numeral_in_range_witness :
  NilZero.int_of_string "-5" = Some (Decimal.Neg (Decimal.D5 Decimal.Nil)) /\
  exists st',
    setFromText PropertyID.DeviceVoltage (Some "-5"%string) PropertyStore_init
    = Returns (false, st').
Proof.
  split; [reflexivity|].
  destruct (voltage_numeral_in_range "-5"
              (Decimal.Neg (Decimal.D5 Decimal.Nil)) PropertyStore_init
              eq_refl) as (st' & E & _).
  - vm_compute. split; [discriminate|reflexivity].
  - exact well_sized_init.
  - exists st'. exact E.
Defined.
